(** * cdh-thermal-printer: the raster encoder and the driver discovery client

    A shallow embedding of [src/utils.js] ([convertCanvasToEscPos]) and of
    [src/index.js] (class [ThermalPrinter]) together with the properties the
    specification states about them.

    JavaScript numbers that the program uses as integers are [Z]; a JavaScript
    array is a [list]; an array read that may fall outside the array yields
    [option] ([None] is JavaScript's [undefined], and in arithmetic [NaN]).
    The object [this] is a record that every method receives and returns. *)

From Stdlib Require Import ZArith Lia String Ascii DecimalString.
From stdpp Require Import base list.

#[local] Set Warnings "-register-all".
#[local] Open Scope Z_scope.

(** ** Bounded [for] loops

    [for (let i = lo; i < hi; i++) body] runs [body] for [i = lo], [lo+1], ...
    while [i < hi]; with [hi <= lo] it does not run at all. *)

Fixpoint for_range {S : Type} (n : nat) (i : Z) (body : Z → S → S) (s : S) : S :=
  match n with
  | O => s
  | S n' => for_range n' (i + 1) body (body i s)
  end.

Definition for_loop {S : Type} (lo hi : Z) (body : Z → S → S) (s : S) : S :=
  for_range (Z.to_nat (hi - lo)) lo body s.

(** ** src/utils.js *)

Module Utils.

(** [ImageData | {data, width, height}]. *)
Record ImageData := mkImageData {
  width : Z;
  height : Z;
  data : list Z
}.

(** [pixels[i]]: [undefined] outside the array. *)
Definition pixel_at (pixels : list Z) (i : Z) : option Z :=
  if decide (0 ≤ i) then pixels !! Z.to_nat i else None.

(** [a + b] on numbers where [None] stands for [NaN] (what [undefined]
    becomes in an addition). *)
Definition js_add (a b : option Z) : option Z :=
  match a, b with
  | Some x, Some y => Some (x + y)
  | _, _ => None
  end.

(** [a < t]: false when [a] is [NaN]. *)
Definition js_lt (a : option Z) (t : Z) : bool :=
  match a with
  | Some x => bool_decide (x < t)
  | None => false
  end.

(** [Math.ceil(width / 8)] on an integer [width]. *)
Definition ceil_div8 (w : Z) : Z := - ((- w) / 8).

Definition paddedWidth (img : ImageData) : Z := ceil_div8 (width img) * 8.

Definition xBytes (img : ImageData) : Z := paddedWidth img / 8.

(** The state of the encoder while it runs: the array [command] it builds,
    and, as an observation of the run, the indices at which it has read
    [pixels], in the order of the reads. *)
Record Enc := mkEnc {
  command : list Z;
  reads : list Z
}.

Definition push (bytes : list Z) (s : Enc) : Enc :=
  mkEnc (command s ++ bytes) (reads s).

(** The state of the innermost loop: the byte under construction and the
    reads made for it. *)
Definition bit_step (img : ImageData) (brightnessThreshold y x : Z)
    (bit : Z) (acc : Z * list Z) : Z * list Z :=
  let '(byte, rd) := acc in
  let pixelX := x * 8 + bit in
  if decide (pixelX >= width img) then (byte, rd)
  else
    let pxIndex := (y * width img + pixelX) * 4 in
    let brightness :=
      js_add (js_add (pixel_at (data img) pxIndex)
                     (pixel_at (data img) (pxIndex + 1)))
             (pixel_at (data img) (pxIndex + 2)) in
    let rd' := rd ++ [pxIndex; pxIndex + 1; pxIndex + 2] in
    if js_lt brightness brightnessThreshold
    then (Z.lor byte (Z.shiftl 1 (7 - bit)), rd')
    else (byte, rd').

Definition byte_step (img : ImageData) (brightnessThreshold y : Z)
    (x : Z) (s : Enc) : Enc :=
  let '(byte, rd) :=
    for_loop 0 8 (bit_step img brightnessThreshold y x) (0, []) in
  mkEnc (command s ++ [byte]) (reads s ++ rd).

Definition row_step (img : ImageData) (brightnessThreshold : Z)
    (y : Z) (s : Enc) : Enc :=
  for_loop 0 (xBytes img) (byte_step img brightnessThreshold y) s.

Definition run_convertCanvasToEscPos (img : ImageData)
    (brightnessThreshold : Z) : Enc :=
  let command := mkEnc [] [] in
  let command := push [0x1d; 0x76; 0x30; 0x00] command in
  let command :=
    push [Z.rem (xBytes img) 256; xBytes img / 256] command in
  let command :=
    push [Z.rem (height img) 256; height img / 256] command in
  for_loop 0 (height img) (row_step img brightnessThreshold) command.

Definition convertCanvasToEscPos (img : ImageData)
    (brightnessThreshold : Z) : list Z :=
  command (run_convertCanvasToEscPos img brightnessThreshold).

(** The default value of the second parameter. *)
Definition default_threshold : Z := 382.

(** *** What the specification says, in its own words *)

(** [width > 0], [height > 0], [data.length == width*height*4]. *)
Definition conformant (img : ImageData) : Prop :=
  0 < width img ∧ 0 < height img ∧
  Z.of_nat (length (data img)) = width img * height img * 4.

(** The channel [c] (0 red, 1 green, 2 blue, 3 alpha) of the pixel at
    column [px] of row [y]. *)
Definition channel (img : ImageData) (y px c : Z) : option Z :=
  pixel_at (data img) ((y * width img + px) * 4 + c).

(** The bit the specification asks for at column [px] of row [y]:
    0 for a padding column, otherwise 1 iff red+green+blue < threshold. *)
Definition ink (img : ImageData) (threshold y px : Z) : bool :=
  if decide (px < width img) then
    js_lt (js_add (js_add (channel img y px 0) (channel img y px 1))
                  (channel img y px 2)) threshold
  else false.

(** Eight bits packed into a byte, most significant bit first: bit [b]
    (0 the leftmost) has weight [2^(7-b)]. *)
Definition byte_of_bits (f : Z → bool) : Z :=
  foldr (λ b acc, (if f b then 2 ^ (7 - b) else 0) + acc) 0 (seqZ 0 8).

(** [widthBytes = ceil(width / 8)]. *)
Definition widthBytes (img : ImageData) : Z := (width img + 7) / 8.

(** The data bytes: for each row, for each byte column, the eight bits of
    the columns [x*8 .. x*8+7]. *)
Definition raster_byte (img : ImageData) (threshold y x : Z) : Z :=
  byte_of_bits (λ b, ink img threshold y (x * 8 + b)).

Definition raster_row (img : ImageData) (threshold y : Z) : list Z :=
  raster_byte img threshold y <$> seqZ 0 (widthBytes img).

Definition raster_data (img : ImageData) (threshold : Z) : list Z :=
  mjoin (raster_row img threshold <$> seqZ 0 (height img)).

(** The indices of the red, green and blue channel of the pixel at column
    [px] of row [y], or nothing for a padding column. *)
Definition pixel_reads (img : ImageData) (y px : Z) : list Z :=
  if decide (px >= width img) then []
  else let i := (y * width img + px) * 4 in [i; i + 1; i + 2].

Definition byte_reads (img : ImageData) (y x : Z) : list Z :=
  mjoin ((λ b, pixel_reads img y (x * 8 + b)) <$> seqZ 0 8).

Definition row_reads (img : ImageData) (y : Z) : list Z :=
  mjoin (byte_reads img y <$> seqZ 0 (widthBytes img)).

Definition raster_header : list Z := [0x1d; 0x76; 0x30; 0x00].

Definition size_fields (widthBytes h : Z) : list Z :=
  [widthBytes `mod` 256; widthBytes / 256; h `mod` 256; h / 256].

(** Sample buffers. [edge2x1] is one row of two pixels whose channel sums
    are 382 and 381; [short8x1] announces eight pixels and holds none;
    [tall1x65536] is a conformant black column of 65536 pixels. *)
Definition edge2x1 : ImageData :=
  mkImageData 2 1 [100; 100; 182; 7; 100; 100; 181; 200].
Definition short8x1 : ImageData := mkImageData 8 1 [].
Definition tall1x65536 : ImageData :=
  mkImageData 1 65536 (replicate (Z.to_nat 262144) 0).
Definition white8x1 : ImageData := mkImageData 8 1 (replicate 32 255).
Definition black8x1 : ImageData := mkImageData 8 1 (replicate 32 0).

End Utils.

(** ** src/index.js *)

Module Index.

Export Utils.

(** *** Values of the host language *)

(** What [res.json()] can yield. *)
Inductive json :=
  | JNull
  | JBool (b : bool)
  | JNum (n : Z)
  | JStr (s : string)
  | JArr (items : list json)
  | JObj (fields : list (string * json)).

(** A JavaScript value as far as the program meets one: [undefined] or a
    JSON value. *)
Inductive jsval :=
  | Undefined
  | Val (v : json).

Inductive rejection :=
  | NetworkError
  | AbortError.

(** What a [throw] carries. *)
Inductive js_error :=
  | Error (message : string)
  | TypeError
  | RangeError
  | URIError
  | FetchError (why : rejection).

(** How a call completes. *)
Inductive completion (A : Type) :=
  | Normal (a : A)
  | Throw (e : js_error).
Arguments Normal {A} a.
Arguments Throw {A} e.

(** [!v] is [negb (truthy v)]. *)
Definition truthy (v : jsval) : bool :=
  match v with
  | Undefined => false
  | Val JNull => false
  | Val (JBool b) => b
  | Val (JNum n) => negb (n =? 0)
  | Val (JStr s) => negb (String.eqb s "")
  | Val (JArr _) => true
  | Val (JObj _) => true
  end.

(** [string | null] as a JavaScript value, and inside a template literal. *)
Definition of_nullable (s : option string) : jsval :=
  match s with
  | Some s => Val (JStr s)
  | None => Val JNull
  end.

Definition template (s : option string) : string :=
  match s with
  | Some s => s
  | None => "null"
  end.

(** [`${port}`] for an integer. *)
Definition decimal (n : Z) : string := NilZero.string_of_int (Z.to_int n).

Fixpoint assoc (key : string) (fields : list (string * json)) : jsval :=
  match fields with
  | [] => Undefined
  | (k, v) :: rest => if String.eqb k key then Val v else assoc key rest
  end.

Fixpoint chars (s : string) : list string :=
  match s with
  | EmptyString => []
  | String c rest => String c EmptyString :: chars rest
  end.

Inductive key :=
  | Name (name : string)
  | Index (i : nat).

Definition of_item (o : option json) : jsval :=
  match o with
  | Some v => Val v
  | None => Undefined
  end.

(** [v.name] and [v[i]] on a parsed JSON value (no property has been added
    to a prototype): reading a property of [null] throws a [TypeError]. *)
Definition get (v : json) (k : key) : completion jsval :=
  match v, k with
  | JNull, _ => Throw TypeError
  | JObj fields, Name name => Normal (assoc name fields)
  | JObj fields, Index i => Normal (assoc (decimal (Z.of_nat i)) fields)
  | JArr items, Name "length" => Normal (Val (JNum (Z.of_nat (length items))))
  | JArr items, Index i => Normal (of_item (items !! i))
  | JStr s, Name "length" => Normal (Val (JNum (Z.of_nat (String.length s))))
  | JStr s, Index i => Normal (of_item (JStr <$> chars s !! i))
  | _, _ => Normal Undefined
  end.

(** [v.name] on any value: [undefined] has no properties either. *)
Definition get_of (v : jsval) (k : key) : completion jsval :=
  match v with
  | Undefined => Throw TypeError
  | Val v => get v k
  end.

(** *** The host: network, platform functions, and src/constants.js *)

Inductive Method :=
  | GET
  | POST (content_type : string) (body : list Z).

(** One call of [fetch]: [abort_after] is the delay in milliseconds after
    which an [AbortController] attached to the call aborts it, if there is
    one. *)
Record Request := mkRequest {
  url : string;
  method : Method;
  abort_after : option Z
}.

(** [ok] is [res.ok]; [body] is what [res.json()] resolves to, [None] when
    it rejects. *)
Record Response := mkResponse {
  ok : bool;
  body : option json
}.

Inductive FetchResult :=
  | Rejected (why : rejection)
  | Resolved (res : Response).

(** The network the program runs against: how it answers each request, and
    how answering changes it. *)
Class Network := {
  World : Type;
  fetch : Request → World → FetchResult * World
}.

(** Platform functions the program calls. [str_gt0] and [obj_gt0] are the
    comparison [v > 0] on a string and on an array or object, which first
    converts them to numbers. *)
Class Platform := {
  TextEncoder_encode : string → list Z;
  encodeURIComponent : jsval → completion string;
  str_gt0 : string → bool;
  obj_gt0 : json → bool
}.

(** [CMD] of src/constants.js, which is not among the sources: arrays of
    numbers, one number ([LF]) and one function to an array ([BEEP]). The
    arrays are command sequences of a few entries each. *)
Class Constants := {
  CMD_INIT : list Z;
  CMD_ALIGN_LEFT : list Z;
  CMD_BOLD_ON : list Z;
  CMD_BOLD_OFF : list Z;
  CMD_LF : Z;
  CMD_CUT_PARTIAL : list Z;
  CMD_CUT_FULL : list Z;
  CMD_BEEP : Z → list Z;
  CMD_DRAWER_KICK : list Z
}.

(** The JavaScript engine. A call with a spread argument, [f(...a)], passes
    every entry of [a] as an argument of its own, and an engine accepts only
    so many arguments in one call: with more than [max_arguments] it throws
    a [RangeError] instead of making the call. *)
Class Engine := {
  max_arguments : Z
}.

(** [v > 0]. *)
Definition gt0 `{Platform} (v : jsval) : bool :=
  match v with
  | Undefined => false
  | Val JNull => false
  | Val (JBool b) => b
  | Val (JNum n) => bool_decide (0 < n)
  | Val (JStr s) => str_gt0 s
  | Val (JArr items) => obj_gt0 (JArr items)
  | Val (JObj fields) => obj_gt0 (JObj fields)
  end.

(** *** Asynchronous code: a state monad over the network

    The state is the network and, as an observation, the requests issued so
    far with their results, oldest first. *)

Record Env `{Network} := mkEnv {
  world : World;
  trace : list (Request * FetchResult)
}.

Definition M `{Network} (A : Type) : Type := Env → A * Env.

Definition ret `{Network} {A : Type} (a : A) : M A := λ e, (a, e).

Definition bind `{Network} {A B : Type} (m : M A) (k : A → M B) : M B :=
  λ e, let '(a, e') := m e in k a e'.

Notation "'do' x <- m ; k" := (bind m (λ x, k))
  (at level 10, x name, m at level 100, k at level 200,
   format "'[v' 'do'  x  <-  m ;  '/' k ']'").
Notation "'do' ' p <- m ; k" := (bind m (λ x, let 'p := x in k))
  (at level 10, p pattern, m at level 100, k at level 200,
   format "'[v' 'do'  ' p  <-  m ;  '/' k ']'").

(** [await fetch(...)]. *)
Definition await_fetch `{Network} (rq : Request) : M FetchResult :=
  λ e, let '(r, w) := fetch rq (world e) in
       (r, mkEnv _ w (trace e ++ [(rq, r)])).

(** *** class ThermalPrinter *)

Record ThermalPrinter := mkPrinter {
  driverApi : option string;
  printerWidth : Z;
  buffer : list (option Z)
}.

(** [new ThermalPrinter(width)]; [width] defaults to 384. *)
Definition new_ThermalPrinter (width : Z) : ThermalPrinter :=
  mkPrinter None width [].

(** [this.buffer.push(x1, ..., xn)]. *)
Definition buffer_push (bytes : list (option Z)) (this : ThermalPrinter)
    : ThermalPrinter :=
  mkPrinter (driverApi this) (printerWidth this) (buffer this ++ bytes).

(** [this.buffer.push(...bytes)] for an array [bytes] that the caller of
    the method determines: the engine refuses the call, and nothing is
    pushed, when [bytes] has more entries than a call takes arguments. *)
Definition push_spread `{Engine} (bytes : list (option Z))
    (this : ThermalPrinter) : completion ThermalPrinter :=
  if decide (Z.of_nat (length bytes) ≤ max_arguments)
  then Normal (buffer_push bytes this)
  else Throw RangeError.

Definition numbers (bytes : list Z) : list (option Z) := Some <$> bytes.

(** [a[i] = v] on an array: past the end the array grows, and the elements
    in between are holes, which read as [undefined]. *)
Definition array_set {A : Type} (a : list (option A)) (i : nat) (v : option A)
    : list (option A) :=
  if decide (i < length a)%nat then <[i := v]> a
  else a ++ replicate (i - length a) None ++ [v].

(** **** Basic commands

    Each method mutates [this.buffer] and ends in [return this]: it is a
    function from the instance before the call to the instance after it.
    [line], [divider], [raw] and [image] can throw, so they return a
    [completion]: they spread into [push] an array as long as the caller
    makes it. The other spreads are of the few entries of a constant of
    src/constants.js. *)

Definition init `{Constants} (this : ThermalPrinter) : ThermalPrinter :=
  buffer_push (numbers CMD_INIT) this.

(** [alignment] defaults to 1. *)
Definition align `{Constants} (alignment : Z) (this : ThermalPrinter)
    : ThermalPrinter :=
  let cmd := numbers CMD_ALIGN_LEFT in
  let cmd := array_set cmd 2 (Some alignment) in
  buffer_push cmd this.

(** [enable] defaults to [true]. *)
Definition bold `{Constants} (enable : bool) (this : ThermalPrinter)
    : ThermalPrinter :=
  buffer_push (numbers (if enable then CMD_BOLD_ON else CMD_BOLD_OFF)) this.

(** [lines] defaults to 1. *)
Definition feed `{Constants} (lines : Z) (this : ThermalPrinter)
    : ThermalPrinter :=
  for_loop 0 lines (λ _, buffer_push [Some CMD_LF]) this.

(** [partial] defaults to [false]. *)
Definition cut `{Constants} (partial : bool) (this : ThermalPrinter)
    : ThermalPrinter :=
  buffer_push (numbers (if partial then CMD_CUT_PARTIAL else CMD_CUT_FULL)) this.

Definition newline_char : string := String (ascii_of_nat 10) EmptyString.

(** [text] defaults to the empty string. *)
Definition line `{Engine, Platform} (text : string) (this : ThermalPrinter)
    : completion ThermalPrinter :=
  let bytes := TextEncoder_encode (text ++ newline_char) in
  push_spread (numbers bytes) this.

(** [count] defaults to 1. *)
Definition newline `{Constants} (count : Z) (this : ThermalPrinter)
    : ThermalPrinter :=
  for_loop 0 count (λ _, buffer_push [Some CMD_LF]) this.

(** [s.repeat(count)] for an integer [count]: a negative one is a
    [RangeError]. (So is a result longer than a string can be; the encoding
    of such a string has more entries than a call takes arguments, and in
    [divider], the one place that calls [repeat], the [RangeError] then
    comes from [line].) *)
Definition repeat_string (s : string) (count : Z) : completion string :=
  if decide (count < 0) then Throw RangeError
  else Normal (for_loop 0 count (λ _ acc, (acc ++ s)%string) ""%string).

(** [char] defaults to ["-"], [width] to 32. *)
Definition divider `{Engine, Platform} (char : string) (width : Z)
    (this : ThermalPrinter) : completion ThermalPrinter :=
  match repeat_string char width with
  | Normal text => line text this
  | Throw e => Throw e
  end.

(** [times] defaults to 1, [duration] to 100. *)
Definition beep `{Constants} (times duration : Z) (this : ThermalPrinter)
    : ThermalPrinter :=
  for_loop 0 times (λ _, buffer_push (numbers (CMD_BEEP duration))) this.

Definition drawerKick `{Constants} (this : ThermalPrinter) : ThermalPrinter :=
  buffer_push (numbers CMD_DRAWER_KICK) this.

Definition raw `{Engine} (bytes : list Z) (this : ThermalPrinter)
    : completion ThermalPrinter :=
  push_spread (numbers bytes) this.

Definition image `{Engine} (imageData : ImageData) (this : ThermalPrinter)
    : completion ThermalPrinter :=
  let bytes := convertCanvasToEscPos imageData default_threshold in
  push_spread (numbers bytes) this.

(** A call of one of the twelve methods, and what it does. *)
Inductive BuilderCall :=
  | call_init
  | call_align (alignment : Z)
  | call_bold (enable : bool)
  | call_feed (lines : Z)
  | call_cut (partial : bool)
  | call_line (text : string)
  | call_newline (count : Z)
  | call_divider (char : string) (width : Z)
  | call_beep (times duration : Z)
  | call_drawerKick
  | call_raw (bytes : list Z)
  | call_image (imageData : ImageData).

Definition invoke `{Engine, Constants, Platform} (c : BuilderCall)
    (this : ThermalPrinter) : completion ThermalPrinter :=
  match c with
  | call_init => Normal (init this)
  | call_align a => Normal (align a this)
  | call_bold b => Normal (bold b this)
  | call_feed n => Normal (feed n this)
  | call_cut p => Normal (cut p this)
  | call_line t => line t this
  | call_newline n => Normal (newline n this)
  | call_divider c w => divider c w this
  | call_beep t d => Normal (beep t d this)
  | call_drawerKick => Normal (drawerKick this)
  | call_raw bs => raw bs this
  | call_image img => image img this
  end.

(** The calls that do not return, as their arguments tell: [width] copies
    of [char] for a negative [width], and an array with too many entries
    for one call of [push]. *)
Fixpoint copies (n : nat) (s : string) : string :=
  match n with
  | O => ""%string
  | S n' => (s ++ copies n' s)%string
  end.

Definition too_long `{Engine} (bytes : list Z) : Prop :=
  max_arguments < Z.of_nat (length bytes).

Definition throws `{Engine, Platform} (c : BuilderCall) : Prop :=
  match c with
  | call_line text => too_long (TextEncoder_encode (text ++ newline_char))
  | call_divider char width =>
      width < 0 ∨
      too_long (TextEncoder_encode
                  (copies (Z.to_nat width) char ++ newline_char))
  | call_raw bytes => too_long bytes
  | call_image imageData =>
      too_long (convertCanvasToEscPos imageData default_threshold)
  | _ => False
  end.

(** **** Execution *)

Definition clear (this : ThermalPrinter) : ThermalPrinter :=
  mkPrinter (driverApi this) (printerWidth this) [].

(** An element of [new Uint8Array(array)]: a number modulo 256, and 0 for
    [undefined]. *)
Definition to_uint8 (x : option Z) : Z :=
  match x with
  | Some n => n `mod` 256
  | None => 0
  end.

Definition getBuffer (this : ThermalPrinter) : list Z :=
  to_uint8 <$> buffer this.

(** **** Auto discovery and print *)

Definition health_check (base : string) (abort_after : option Z) : Request :=
  mkRequest (base ++ "/health") GET abort_after.

Definition localhost (port : Z) : string :=
  ("http://localhost:" ++ decimal port)%string.

(** [data.service === "CDH-Driver"]. *)
Definition is_driver (data : json) : completion bool :=
  match get data (Name "service") with
  | Normal (Val (JStr s)) => Normal (String.eqb s "CDH-Driver")
  | Normal _ => Normal false
  | Throw e => Throw e
  end.

(** Whether the body of the [try] in the scan loop reaches [return true]
    on this result of its [fetch]; every other result, an exception
    included, leads to the next port. *)
Definition valid_match (r : FetchResult) : bool :=
  match r with
  | Resolved res =>
      if ok res then
        match body res with
        | Some data =>
            match is_driver data with
            | Normal true => true
            | Normal false => false
            | Throw _ => false
            end
        | None => false
        end
      else false
  | Rejected _ => false
  end.

(** The loop [for (let port = ...; port <= 9130; port++)] with [n] ports
    left to try, the next being [port]. It does not write to [this]. *)
Fixpoint scan `{Network} (n : nat) (port : Z) : M bool :=
  match n with
  | O => ret false
  | S n' =>
      let url := localhost port in
      do r <- await_fetch (health_check url (Some 100));
      if valid_match r then ret true else scan n' (port + 1)
  end.

Definition portRangeLow : Z := 9123.
Definition portRangeHigh : Z := 9130.

(** The liveness probe of step 1: no [AbortController] is attached. *)
Definition liveness_probe (this : ThermalPrinter) : Request :=
  health_check (template (driverApi this)) None.

(** Step 1 of [findDriver]: the boolean says whether the step ended in
    [return true]; the instance is as the step leaves it. *)
Definition ping `{Network} (this : ThermalPrinter) : M (bool * ThermalPrinter) :=
  if truthy (of_nullable (driverApi this)) then
    do r <- await_fetch (liveness_probe this);
    match r with
    | Resolved res => ret (ok res, this)
    | Rejected _ =>
        ret (false, mkPrinter None (printerWidth this) (buffer this))
    end
  else ret (false, this).

Definition findDriver `{Network} (this : ThermalPrinter)
    : M (bool * ThermalPrinter) :=
  do '(alive, this) <- ping this;
  if (alive : bool) then ret (true, this)
  else
    do found <- scan (Z.to_nat (portRangeHigh + 1 - portRangeLow)) portRangeLow;
    ret (found, this).

(** [fetch(`${apiUrl}/printers`)]. *)
Definition printers_request (apiUrl : option string) : Request :=
  mkRequest (template apiUrl ++ "/printers") GET None.

(** The [try] block of [getPrinters]: both the [fetch] and the
    [res.json()] are inside it, and its [catch] returns the empty array. *)
Definition fetch_printers `{Network} (apiUrl : option string)
    : M (completion json) :=
  do r <- await_fetch (printers_request apiUrl);
  match r with
  | Resolved res =>
      match body res with
      | Some v => ret (Normal v)
      | None => ret (Normal (JArr []))
      end
  | Rejected _ => ret (Normal (JArr []))
  end.

(** [static async getPrinters(overrideUrl = null)]. *)
Definition getPrinters `{Network} (overrideUrl : option string)
    : M (completion json) :=
  let apiUrl := overrideUrl in
  if negb (truthy (of_nullable apiUrl)) then
    let temp := new_ThermalPrinter 384 in
    do '(found, temp) <- findDriver temp;
    if (found : bool) then fetch_printers (driverApi temp)
    else ret (Normal (JArr []))
  else fetch_printers apiUrl.

Definition msg_no_driver : string :=
  "Cannot connect to Printer Driver. Please run the application.".
Definition msg_no_printer : string := "No printer found in Windows settings.".
Definition msg_driver_error : string := "Driver returned error".

(** [if (printers.length > 0) printerName = printers[0].name; else throw]. *)
Definition first_printer_name `{Platform} (printers : json) : completion jsval :=
  match get printers (Name "length") with
  | Throw e => Throw e
  | Normal len =>
      if gt0 len then
        match get printers (Index 0) with
        | Throw e => Throw e
        | Normal first => get_of first (Name "name")
        end
      else Throw (Error msg_no_printer)
  end.

Definition print_request (api : option string) (encodedName : string)
    (bufferData : list Z) : Request :=
  mkRequest (template api ++ "/print?printer=" ++ encodedName)
            (POST "application/octet-stream" bufferData) None.

(** The [try] block of [print]; its [catch] rethrows. *)
Definition deliver `{Network, Platform} (printerName : jsval)
    (this : ThermalPrinter) : M (completion bool * ThermalPrinter) :=
  let bufferData := getBuffer this in
  match encodeURIComponent printerName with
  | Throw e => ret (Throw e, this)
  | Normal encodedName =>
      do r <- await_fetch (print_request (driverApi this) encodedName bufferData);
      match r with
      | Rejected why => ret (Throw (FetchError why), this)
      | Resolved res =>
          if negb (ok res) then ret (Throw (Error msg_driver_error), this)
          else ret (Normal true, clear this)
      end
  end.

(** [async print(printerName)]: the result [Normal true] stands for
    [{ success: true }]. *)
Definition print `{Network, Platform} (printerName : jsval)
    (this : ThermalPrinter) : M (completion bool * ThermalPrinter) :=
  do '(found, this) <- findDriver this;
  if negb found then ret (Throw (Error msg_no_driver), this)
  else if negb (truthy printerName) then
    do printers <- getPrinters (driverApi this);
    match printers with
    | Throw e => ret (Throw e, this)
    | Normal printers =>
        match first_printer_name printers with
        | Throw e => ret (Throw e, this)
        | Normal printerName => deliver printerName this
        end
    end
  else deliver printerName this.

(** *** Observations on a run *)

(** The requests a computation issues when started in [e], with their
    results. *)
Definition issued `{Network} {A : Type} (m : M A) (e : Env)
    : list (Request * FetchResult) :=
  drop (length (trace e)) (trace (m e).2).

(** The probe of a port, and of the [k]-th port of the scan. *)
Definition probe_of (port : Z) : Request :=
  health_check (localhost port) (Some 100).

Definition probe (k : nat) : Request :=
  probe_of (portRangeLow + Z.of_nat k).

(** The runs of the scan loop as a relation: with [n] ports left from
    [port] on, the loop issues the requests [tr] (with these results) and
    ends with [found]. *)
Inductive scanned : nat → Z → list (Request * FetchResult) → bool → Prop :=
  | scanned_exhausted port :
      scanned 0 port [] false
  | scanned_hit n port r :
      valid_match r = true →
      scanned (S n) port [(probe_of port, r)] true
  | scanned_miss n port r tr found :
      valid_match r = false →
      scanned n (port + 1) tr found →
      scanned (S n) port ((probe_of port, r) :: tr) found.

(** A valid match in the words of the specification: a successful
    response whose body is a JSON object with the service signature in its
    identity field. *)
Definition answers_as_driver (fr : FetchResult) : Prop :=
  ∃ res fields,
    fr = Resolved res ∧ ok res = true ∧ body res = Some (JObj fields) ∧
    assoc "service" fields = Val (JStr "CDH-Driver").

(** [fr] is a failed delivery or probe: the [fetch] rejected, or resolved
    with a status outside 200..299. *)
Definition failed (fr : FetchResult) : Prop :=
  match fr with
  | Rejected _ => True
  | Resolved res => ok res = false
  end.

#[global] Instance failed_dec fr : Decision (failed fr).
Proof. destruct fr; cbn; apply _. Defined.

Definition is_post (rq : Request) : Prop :=
  match method rq with
  | POST _ _ => True
  | GET => False
  end.

(** What [getPrinters] returns for each result of its request. *)
Definition printers_result (fr : FetchResult) : json :=
  match fr with
  | Rejected _ => JArr []
  | Resolved res =>
      match body res with
      | Some v => v
      | None => JArr []
      end
  end.

Definition is_array (v : json) : Prop :=
  match v with
  | JArr _ => True
  | _ => False
  end.

(** *** Sample hosts *)

Definition driver_health : Response :=
  mkResponse true (Some (JObj [("service"%string, JStr "CDH-Driver")])).

Definition http500 (v : json) : Response := mkResponse false (Some v).

(** Nothing listens on any port but 9126, where the driver answers. *)
Definition net_9126 : Network := {|
  World := unit;
  fetch rq w :=
    if String.eqb (url rq) "http://localhost:9126/health"
    then (Resolved driver_health, w)
    else (Rejected NetworkError, w)
|}.

(** Nothing listens on any port. *)
Definition net_silent : Network := {|
  World := unit;
  fetch rq w := (Rejected NetworkError, w)
|}.

(** A server on port 9123 that answers every request with status 500 and
    a JSON error object; nothing listens elsewhere. *)
Definition error_body : json := JObj [("error"%string, JStr "internal")].

Definition net_9123_http500 : Network := {|
  World := unit;
  fetch rq w :=
    if String.prefix "http://localhost:9123/" (url rq)
    then (Resolved (http500 error_body), w)
    else (Rejected NetworkError, w)
|}.

(** A driver on port 9123 with one printer; it accepts every print job. *)
Definition one_printer : json :=
  JArr [JObj [("name"%string, JStr "POS-58"); ("status_text"%string, JStr "Ready")]].

Definition net_driver_9123 : Network := {|
  World := unit;
  fetch rq w :=
    if String.eqb (url rq) "http://localhost:9123/health"
    then (Resolved driver_health, w)
    else if String.eqb (url rq) "http://localhost:9123/printers"
    then (Resolved (mkResponse true (Some one_printer)), w)
    else if String.prefix "http://localhost:9123/print?" (url rq)
    then (Resolved (mkResponse true (Some (JObj []))), w)
    else (Rejected NetworkError, w)
|}.

Definition start `{Network} (w : World) : Env := mkEnv _ w [].

Definition code (c : ascii) : Z := Z.of_nat (nat_of_ascii c).

(** A host for text that is ASCII only. *)
Definition ascii_host : Platform := {|
  TextEncoder_encode s := code <$> list_ascii_of_string s;
  encodeURIComponent v :=
    match v with
    | Val (JStr s) => Normal s
    | _ => Normal "undefined"%string
    end;
  str_gt0 s := false;
  obj_gt0 v := false
|}.

(** An engine that takes 65536 arguments in one call. *)
Definition args_65536 : Engine := {| max_arguments := 65536 |}.

(** The usual ESC/POS byte sequences. *)
Definition escpos : Constants := {|
  CMD_INIT := [0x1b; 0x40];
  CMD_ALIGN_LEFT := [0x1b; 0x61; 0x00];
  CMD_BOLD_ON := [0x1b; 0x45; 0x01];
  CMD_BOLD_OFF := [0x1b; 0x45; 0x00];
  CMD_LF := 0x0a;
  CMD_CUT_PARTIAL := [0x1d; 0x56; 0x01];
  CMD_CUT_FULL := [0x1d; 0x56; 0x00];
  CMD_BEEP duration := [0x1b; 0x42; 0x01; duration];
  CMD_DRAWER_KICK := [0x1b; 0x70; 0x00; 0x0c; 0x78]
|}.

End Index.

(** ** src/index.js, the revision held in src/unnamed/part_000

    This revision of the class differs from the one above in [findDriver],
    which stores the endpoint it finds, and in two more methods, which
    select a printer by its USB vendor and product identifiers. The command
    builders, [clear] and [getBuffer] are the same. *)

Module Index2.
Import Index.

(** The scan loop: on a valid match [this.driverApi = url] before
    [return true]. *)
Fixpoint scan `{Network} (n : nat) (port : Z) (this : ThermalPrinter)
    : M (bool * ThermalPrinter) :=
  match n with
  | O => ret (false, this)
  | S n' =>
      let url := localhost port in
      do r <- await_fetch (health_check url (Some 100));
      if valid_match r
      then ret (true, mkPrinter (Some url) (printerWidth this) (buffer this))
      else scan n' (port + 1) this
  end.

Definition findDriver `{Network} (this : ThermalPrinter)
    : M (bool * ThermalPrinter) :=
  do '(alive, this) <- ping this;
  if (alive : bool) then ret (true, this)
  else scan (Z.to_nat (portRangeHigh + 1 - portRangeLow)) portRangeLow this.

Definition getPrinters `{Network} (overrideUrl : option string)
    : M (completion json) :=
  let apiUrl := overrideUrl in
  if negb (truthy (of_nullable apiUrl)) then
    let temp := new_ThermalPrinter 384 in
    do '(found, temp) <- findDriver temp;
    if (found : bool) then fetch_printers (driverApi temp)
    else ret (Normal (JArr []))
  else fetch_printers apiUrl.

Definition print `{Network, Platform} (printerName : jsval)
    (this : ThermalPrinter) : M (completion bool * ThermalPrinter) :=
  do '(found, this) <- findDriver this;
  if negb found then ret (Throw (Error msg_no_driver), this)
  else if negb (truthy printerName) then
    do printers <- getPrinters (driverApi this);
    match printers with
    | Throw e => ret (Throw e, this)
    | Normal printers =>
        match first_printer_name printers with
        | Throw e => ret (Throw e, this)
        | Normal printerName => deliver printerName this
        end
    end
  else deliver printerName this.

(** [v === s] for a string [s]. *)
Definition is_string (v : jsval) (s : string) : bool :=
  match v with
  | Val (JStr s') => String.eqb s' s
  | _ => false
  end.

(** [p => p.vid === vid && p.pid === pid]. *)
Definition same_ids (vid pid : string) (p : json) : completion bool :=
  match get p (Name "vid") with
  | Throw e => Throw e
  | Normal v =>
      if is_string v vid then
        match get p (Name "pid") with
        | Throw e => Throw e
        | Normal w => Normal (is_string w pid)
        end
      else Normal false
  end.

(** [items.filter(p => ...)]: the callback runs on the entries in order,
    and the first throw ends the call. *)
Fixpoint filter_ids (vid pid : string) (items : list json)
    : completion (list json) :=
  match items with
  | [] => Normal []
  | p :: rest =>
      match same_ids vid pid p with
      | Throw e => Throw e
      | Normal keep =>
          match filter_ids vid pid rest with
          | Throw e => Throw e
          | Normal kept => Normal (if keep then p :: kept else kept)
          end
      end
  end.

(** [allPrinters.filter(...)]: only an array has a [filter] to call. *)
Definition filter_printers (vid pid : string) (allPrinters : json)
    : completion json :=
  match allPrinters with
  | JArr items =>
      match filter_ids vid pid items with
      | Normal kept => Normal (JArr kept)
      | Throw e => Throw e
      end
  | _ => Throw TypeError
  end.

(** The [try] block of [getPrinters_filterByVidPid]; its [catch] returns
    the empty array. *)
Definition fetch_filtered `{Network} (vid pid : string)
    (apiUrl : option string) : M (completion json) :=
  do r <- await_fetch (printers_request apiUrl);
  match r with
  | Resolved res =>
      match body res with
      | Some allPrinters =>
          match filter_printers vid pid allPrinters with
          | Normal kept => ret (Normal kept)
          | Throw _ => ret (Normal (JArr []))
          end
      | None => ret (Normal (JArr []))
      end
  | Rejected _ => ret (Normal (JArr []))
  end.

(** [static async getPrinters_filterByVidPid(vid, pid, overrideUrl = null)]. *)
Definition getPrinters_filterByVidPid `{Network} (vid pid : string)
    (overrideUrl : option string) : M (completion json) :=
  let apiUrl := overrideUrl in
  if negb (truthy (of_nullable apiUrl)) then
    let temp := new_ThermalPrinter 384 in
    do '(found, temp) <- findDriver temp;
    if (found : bool) then fetch_filtered vid pid (driverApi temp)
    else ret (Normal (JArr []))
  else fetch_filtered vid pid apiUrl.

Definition msg_no_match (vid pid : string) : string :=
  ("No printer found with VID: " ++ vid ++ ", PID: " ++ pid)%string.

(** [v === 0]. *)
Definition is_zero (v : jsval) : bool :=
  match v with
  | Val (JNum n) => n =? 0
  | _ => false
  end.

(** [async print_fixId(vid, pid)]. *)
Definition print_fixId `{Network, Platform} (vid pid : string)
    (this : ThermalPrinter) : M (completion bool * ThermalPrinter) :=
  do '(found, this) <- findDriver this;
  if negb found then ret (Throw (Error msg_no_driver), this)
  else
    do printers <- getPrinters_filterByVidPid vid pid (driverApi this);
    match printers with
    | Throw e => ret (Throw e, this)
    | Normal printers =>
        match get printers (Name "length") with
        | Throw e => ret (Throw e, this)
        | Normal len =>
            if is_zero len
            then ret (Throw (Error (msg_no_match vid pid)), this)
            else
              match get printers (Index 0) with
              | Throw e => ret (Throw e, this)
              | Normal first =>
                  match get_of first (Name "name") with
                  | Throw e => ret (Throw e, this)
                  | Normal printerName => print printerName this
                  end
              end
        end
    end.

(** The entries the filter is meant to keep. *)
Definition has_ids (vid pid : string) (p : json) : bool :=
  is_string (match get p (Name "vid") with Normal v => v | _ => Undefined end)
            vid &&
  is_string (match get p (Name "pid") with Normal v => v | _ => Undefined end)
            pid.

(** A driver on port 9125 that lists two printers, one of them with USB
    identifiers; it accepts every print job. *)
Definition usb_printer : json :=
  JObj [("name"%string, JStr "POS-80"); ("vid"%string, JStr "VID_0FE6");
        ("pid"%string, JStr "PID_811E")].

Definition two_printers : json :=
  JArr [JObj [("name"%string, JStr "PDF")]; usb_printer].

Definition net_driver_9125 : Network := {|
  World := unit;
  fetch rq w :=
    if String.eqb (url rq) "http://localhost:9125/health"
    then (Resolved driver_health, w)
    else if String.eqb (url rq) "http://localhost:9125/printers"
    then (Resolved (mkResponse true (Some two_printers)), w)
    else if String.prefix "http://localhost:9125/print?" (url rq)
    then (Resolved (mkResponse true (Some (JObj []))), w)
    else (Rejected NetworkError, w)
|}.

End Index2.

(** ** Using the library: images in strips, calls in a chain *)

Module Usage.
Import Index.

(** Two images of the same width, [top] above [bottom]: the rows of an
    [ImageData] follow one another in [data]. *)
Definition stack (top bottom : ImageData) : ImageData :=
  mkImageData (width top) (height top + height bottom)
              (data top ++ data bottom).

(** [printer.a(...).b(...)]: each call runs on the instance the previous one
    returned; a call that throws ends the chain. *)
Fixpoint chain `{Engine, Constants, Platform} (calls : list BuilderCall)
    (this : ThermalPrinter) : completion ThermalPrinter :=
  match calls with
  | [] => Normal this
  | c :: rest =>
      match invoke c this with
      | Normal this' => chain rest this'
      | Throw e => Throw e
      end
  end.

(** A request for the health path of some endpoint. *)
Definition is_health_get (rq : Request) : Prop :=
  method rq = GET ∧ ∃ base, url rq = (base ++ "/health")%string.

(** A driver on port 9123 that lists no printer. *)
Definition net_no_printers : Network := {|
  World := unit;
  fetch rq w :=
    if String.eqb (url rq) "http://localhost:9123/health"
    then (Resolved driver_health, w)
    else if String.eqb (url rq) "http://localhost:9123/printers"
    then (Resolved (mkResponse true (Some (JArr []))), w)
    else (Rejected NetworkError, w)
|}.

(** A client whose [driverApi] has been set to port 9123. *)
Definition cached_9123 : ThermalPrinter :=
  mkPrinter (Some "http://localhost:9123"%string) 384 [Some 0x1b; Some 0x40].

End Usage.

(** * Properties *)

(** ** Loops *)

Section loops.
Context {S : Type}.

Lemma for_range_foldl (body : Z → S → S) (n : nat) (i : Z) (s : S) :
  for_range n i body s = foldl (λ s i, body i s) s (seqZ i (Z.of_nat n)).
Proof.
  revert i s. induction n as [|n IH]; intros i s; [done|].
  rewrite seqZ_cons by lia. cbn [for_range foldl]. rewrite IH.
  do 2 f_equal; lia.
Qed.

Lemma for_loop_foldl (body : Z → S → S) (lo hi : Z) (s : S) :
  for_loop lo hi body s = foldl (λ s i, body i s) s (seqZ lo (hi - lo)).
Proof.
  unfold for_loop. rewrite for_range_foldl.
  destruct (decide (0 ≤ hi - lo)).
  - by rewrite Z2Nat.id.
  - rewrite Z2Nat.nonpos by lia. by rewrite !seqZ_nil by lia.
Qed.

(** A loop whose body only appends to a list held in the state. *)
Lemma foldl_appends {A : Type} (proj : S → list A) (f : Z → list A)
    (body : Z → S → S) (idx : list Z) (s : S) :
  (∀ i s, proj (body i s) = proj s ++ f i) →
  proj (foldl (λ s i, body i s) s idx) = proj s ++ mjoin (f <$> idx).
Proof.
  intros Hbody. revert s. induction idx as [|i idx IH]; intros s; csimpl.
  - by rewrite app_nil_r.
  - by rewrite IH, Hbody, <- app_assoc.
Qed.

(** A loop whose body leaves a part of the state alone. *)
Lemma foldl_keeps {A : Type} (proj : S → A) (body : Z → S → S)
    (idx : list Z) (s : S) :
  (∀ i s, proj (body i s) = proj s) →
  proj (foldl (λ s i, body i s) s idx) = proj s.
Proof.
  intros Hbody. revert s. induction idx as [|i idx IH]; intros s; csimpl;
    [done|]. by rewrite IH, Hbody.
Qed.

End loops.

(** ** The raster encoder *)

Module UtilsFacts.
Import Utils.

Lemma bit_step_fst img t y x bit acc :
  (bit_step img t y x bit acc).1 =
  if ink img t y (x * 8 + bit)
  then Z.lor acc.1 (Z.shiftl 1 (7 - bit)) else acc.1.
Proof.
  destruct acc as [byte rd]. unfold bit_step, ink, channel. cbn [fst].
  rewrite Z.add_0_r.
  destruct (decide (x * 8 + bit >= width img)),
    (decide (x * 8 + bit < width img)); try lia; [done|].
  by destruct (js_lt _ _).
Qed.

Lemma bit_step_snd img t y x bit acc :
  (bit_step img t y x bit acc).2 = acc.2 ++ pixel_reads img y (x * 8 + bit).
Proof.
  destruct acc as [byte rd]. unfold bit_step, pixel_reads. cbn [snd].
  destruct (decide (x * 8 + bit >= width img)); [by rewrite app_nil_r|].
  by destruct (js_lt _ _).
Qed.

(** The byte the innermost loop builds for byte column [x] of row [y]. *)
Lemma packed_byte img t y x :
  (for_loop 0 8 (bit_step img t y x) (0, [])).1 =
  byte_of_bits (λ b, ink img t y (x * 8 + b)).
Proof.
  rewrite for_loop_foldl. unfold byte_of_bits.
  change (seqZ 0 (8 - 0)) with [0; 1; 2; 3; 4; 5; 6; 7].
  change (seqZ 0 8) with [0; 1; 2; 3; 4; 5; 6; 7].
  cbn [foldl foldr]. rewrite !bit_step_fst. cbn [fst].
  generalize (ink img t y (x * 8 + 0)), (ink img t y (x * 8 + 1)),
    (ink img t y (x * 8 + 2)), (ink img t y (x * 8 + 3)),
    (ink img t y (x * 8 + 4)), (ink img t y (x * 8 + 5)),
    (ink img t y (x * 8 + 6)), (ink img t y (x * 8 + 7)).
  by intros [] [] [] [] [] [] [] [].
Qed.

Lemma byte_of_bits_range f : 0 ≤ byte_of_bits f < 256.
Proof.
  unfold byte_of_bits.
  change (seqZ 0 8) with [0; 1; 2; 3; 4; 5; 6; 7]. cbn [foldr].
  destruct (f 0), (f 1), (f 2), (f 3), (f 4), (f 5), (f 6), (f 7);
    vm_compute; split; congruence.
Qed.

(** Most significant bit first: bit [b] of the eight is binary digit
    [7 - b] of the byte. *)
Lemma byte_of_bits_testbit f b :
  0 ≤ b < 8 → Z.testbit (byte_of_bits f) (7 - b) = f b.
Proof.
  intros Hb. unfold byte_of_bits.
  change (seqZ 0 8) with [0; 1; 2; 3; 4; 5; 6; 7]. cbn [foldr].
  assert (b = 0 ∨ b = 1 ∨ b = 2 ∨ b = 3 ∨ b = 4 ∨ b = 5 ∨ b = 6 ∨ b = 7)
    as Hcases by lia.
  destruct (f 0) eqn:E0, (f 1) eqn:E1, (f 2) eqn:E2, (f 3) eqn:E3,
    (f 4) eqn:E4, (f 5) eqn:E5, (f 6) eqn:E6, (f 7) eqn:E7;
    decompose [or] Hcases; subst b;
    rewrite ?E0, ?E1, ?E2, ?E3, ?E4, ?E5, ?E6, ?E7; reflexivity.
Qed.

Lemma packed_reads img t y x :
  (for_loop 0 8 (bit_step img t y x) (0, [])).2 = byte_reads img y x.
Proof.
  rewrite for_loop_foldl.
  rewrite (foldl_appends snd (λ b, pixel_reads img y (x * 8 + b))).
  - done.
  - intros. apply bit_step_snd.
Qed.

Lemma xBytes_widthBytes img : xBytes img = widthBytes img.
Proof.
  unfold xBytes, paddedWidth, ceil_div8, widthBytes.
  rewrite Z.div_mul by lia.
  pose proof (Z.div_mod (- width img) 8).
  pose proof (Z.mod_pos_bound (- width img) 8).
  apply (Z.div_unique _ 8 _ (7 - (- width img) `mod` 8)); lia.
Qed.

Lemma byte_step_command img t y x s :
  command (byte_step img t y x s) = command s ++ [raster_byte img t y x].
Proof.
  unfold byte_step, raster_byte. rewrite <- packed_byte.
  by destruct (for_loop 0 8 _ _).
Qed.

Lemma byte_step_reads img t y x s :
  reads (byte_step img t y x s) = reads s ++ byte_reads img y x.
Proof.
  unfold byte_step. rewrite <- (packed_reads img t).
  by destruct (for_loop 0 8 _ _).
Qed.

Lemma join_singletons {A B : Type} (f : A → B) (l : list A) :
  mjoin ((λ x, [f x]) <$> l) = f <$> l.
Proof. induction l; csimpl; by f_equal. Qed.

Lemma row_step_command img t y s :
  command (row_step img t y s) = command s ++ raster_row img t y.
Proof.
  unfold row_step, raster_row. rewrite for_loop_foldl, Z.sub_0_r.
  rewrite (foldl_appends command (λ x, [raster_byte img t y x])).
  - by rewrite join_singletons, xBytes_widthBytes.
  - intros. apply byte_step_command.
Qed.

Lemma row_step_reads img t y s :
  reads (row_step img t y s) = reads s ++ row_reads img y.
Proof.
  unfold row_step, row_reads. rewrite for_loop_foldl, Z.sub_0_r.
  rewrite (foldl_appends reads (byte_reads img y)).
  - by rewrite xBytes_widthBytes.
  - intros. apply byte_step_reads.
Qed.

(** The output on every input, conformant or not. *)
Lemma convert_output img t :
  convertCanvasToEscPos img t =
  raster_header ++
  [Z.rem (widthBytes img) 256; widthBytes img / 256;
   Z.rem (height img) 256; height img / 256] ++
  raster_data img t.
Proof.
  unfold convertCanvasToEscPos, run_convertCanvasToEscPos, raster_data.
  rewrite for_loop_foldl, Z.sub_0_r.
  rewrite (foldl_appends command (raster_row img t)).
  - cbn. by rewrite xBytes_widthBytes.
  - intros. apply row_step_command.
Qed.

Lemma convert_reads img t :
  reads (run_convertCanvasToEscPos img t) =
  mjoin (row_reads img <$> seqZ 0 (height img)).
Proof.
  unfold run_convertCanvasToEscPos.
  rewrite for_loop_foldl, Z.sub_0_r.
  rewrite (foldl_appends reads (row_reads img)).
  - done.
  - intros. apply row_step_reads.
Qed.

Lemma length_raster_row img t y :
  length (raster_row img t y) = Z.to_nat (widthBytes img).
Proof. unfold raster_row. by rewrite length_fmap, length_seqZ. Qed.

Lemma length_raster_data img t :
  length (raster_data img t) = (Z.to_nat (height img) * Z.to_nat (widthBytes img))%nat.
Proof.
  unfold raster_data. rewrite length_join, <- list_fmap_compose.
  rewrite (sum_list_fmap_same (Z.to_nat (widthBytes img))).
  - by rewrite length_seqZ.
  - apply Forall_forall. intros y _. apply length_raster_row.
Qed.

Lemma lookup_raster_data img t y x :
  0 ≤ y < height img → 0 ≤ x < widthBytes img →
  raster_data img t !! Z.to_nat (y * widthBytes img + x) =
  Some (raster_byte img t y x).
Proof.
  intros Hy Hx.
  replace (Z.to_nat (y * widthBytes img + x))
    with (Z.to_nat y * Z.to_nat (widthBytes img) + Z.to_nat x)%nat by lia.
  unfold raster_data.
  apply (join_lookup_Some_same_length' (Z.to_nat (widthBytes img))).
  - apply Forall_fmap, Forall_forall. intros ? _. apply length_raster_row.
  - lia.
  - exists (raster_row img t y). split.
    + rewrite list_lookup_fmap, lookup_seqZ_lt by lia.
      cbn. do 2 f_equal. lia.
    + unfold raster_row.
      rewrite list_lookup_fmap, lookup_seqZ_lt by lia.
      cbn. do 2 f_equal. lia.
Qed.

Lemma lookup_convert_data img t k :
  convertCanvasToEscPos img t !! (8 + k)%nat = raster_data img t !! k.
Proof. by rewrite convert_output. Qed.

Lemma byte_of_bits_ext f g :
  (∀ b, 0 ≤ b < 8 → f b = g b) → byte_of_bits f = byte_of_bits g.
Proof.
  intros Hfg. unfold byte_of_bits.
  change (seqZ 0 8) with [0; 1; 2; 3; 4; 5; 6; 7]. cbn [foldr].
  by rewrite !Hfg by lia.
Qed.

Lemma raster_byte_testbit img t y x b :
  0 ≤ b < 8 →
  Z.testbit (raster_byte img t y x) (7 - b) = ink img t y (x * 8 + b).
Proof. intros. unfold raster_byte. by rewrite byte_of_bits_testbit. Qed.

(** In a conformant buffer every channel of every pixel is there. *)
Lemma channel_conformant img y px c :
  conformant img → 0 ≤ y < height img → 0 ≤ px < width img → 0 ≤ c < 4 →
  ∃ v, channel img y px c = Some v.
Proof.
  intros (Hw & Hh & Hlen) Hy Hpx Hc. unfold channel, pixel_at.
  rewrite decide_True by nia.
  apply lookup_lt_is_Some_2. nia.
Qed.

(** The one-row, eight-column buffer whose channels all hold [v]. *)
Lemma uniform8x1 v t :
  convertCanvasToEscPos (mkImageData 8 1 (replicate 32 v)) t =
  raster_header ++ size_fields 1 1 ++
  [if bool_decide (v + v + v < t) then 255 else 0].
Proof.
  rewrite convert_output. do 2 f_equal.
  unfold raster_data, raster_row, widthBytes. cbn [width height].
  change (seqZ 0 1) with [0]. change (seqZ 0 ((8 + 7) `div` 8)) with [0].
  csimpl. f_equal. unfold raster_byte.
  rewrite (byte_of_bits_ext _ (λ _, bool_decide (v + v + v < t))).
  - by destruct (bool_decide _).
  - intros b Hb. unfold ink, channel, pixel_at. cbn [width data].
    rewrite decide_True by lia.
    rewrite !decide_True by lia.
    assert (b = 0 ∨ b = 1 ∨ b = 2 ∨ b = 3 ∨ b = 4 ∨ b = 5 ∨ b = 6 ∨ b = 7)
      as Hcases by lia.
    decompose [or] Hcases; subst b; reflexivity.
Qed.

(** C4. For a conformant pixel buffer and any threshold the output is the
    four-byte raster header, then the size bytes [widthBytes % 256],
    [floor(widthBytes / 256)], [height % 256], [floor(height / 256)], then
    exactly [height * widthBytes] data bytes, the byte of row [y] and byte
    column [x] holding the bits of the columns [8x .. 8x+7] most significant
    bit first. The all-white 8x1 buffer gives the single data byte 0x00 (at
    the default threshold, and at every threshold up to 765), the all-black
    one 0xFF (at the default threshold, and at every positive one). *)
Theorem C4_raster_command_layout :
  (∀ img t, conformant img →
     convertCanvasToEscPos img t =
       raster_header ++ size_fields (widthBytes img) (height img) ++
       raster_data img t
     ∧ Z.of_nat (length (raster_data img t)) = height img * widthBytes img
     ∧ ∀ y x, 0 ≤ y < height img → 0 ≤ x < widthBytes img →
         ∃ byte,
           raster_data img t !! Z.to_nat (y * widthBytes img + x) = Some byte
           ∧ 0 ≤ byte < 256
           ∧ ∀ b, 0 ≤ b < 8 →
               Z.testbit byte (7 - b) = ink img t y (x * 8 + b))
  ∧ (∀ t, t ≤ 765 →
       convertCanvasToEscPos white8x1 t =
       raster_header ++ size_fields 1 1 ++ [0x00])
  ∧ (∀ t, 0 < t →
       convertCanvasToEscPos black8x1 t =
       raster_header ++ size_fields 1 1 ++ [0xFF])
  ∧ convertCanvasToEscPos white8x1 default_threshold =
      [0x1d; 0x76; 0x30; 0x00; 1; 0; 1; 0; 0x00]
  ∧ convertCanvasToEscPos black8x1 default_threshold =
      [0x1d; 0x76; 0x30; 0x00; 1; 0; 1; 0; 0xFF].
Proof.
  split; [|split; [|split; [|split]]].
  - intros img t (Hw & Hh & Hlen).
    assert (0 < widthBytes img).
    { unfold widthBytes. apply Z.div_str_pos. lia. }
    split; [|split].
    + rewrite convert_output. unfold size_fields.
      by rewrite !Z.rem_mod_nonneg by lia.
    + rewrite length_raster_data. lia.
    + intros y x Hy Hx. exists (raster_byte img t y x).
      split; [by apply lookup_raster_data|].
      split; [apply byte_of_bits_range|].
      intros. by apply raster_byte_testbit.
  - intros t Ht. unfold white8x1. rewrite uniform8x1.
    by rewrite bool_decide_false by lia.
  - intros t Ht. unfold black8x1. rewrite uniform8x1.
    by rewrite bool_decide_true by lia.
  - unfold white8x1. by rewrite uniform8x1.
  - unfold black8x1. by rewrite uniform8x1.
Qed.

(** The layout, on the all-white 8x1 buffer. *)
Lemma C4_raster_command_layout_witness :
  conformant white8x1 ∧
  convertCanvasToEscPos white8x1 382 =
    raster_header ++ size_fields (widthBytes white8x1) (height white8x1) ++
    raster_data white8x1 382.
Proof.
  assert (conformant white8x1) as Hc by (unfold conformant; cbn; lia).
  split; [exact Hc|].
  exact (proj1 (proj1 C4_raster_command_layout white8x1 382 Hc)).
Defined.

(** Where the bit of column [px] of row [y] sits in the output. *)
Lemma lookup_pixel_byte img t y px :
  0 ≤ y < height img → 0 ≤ px < width img →
  convertCanvasToEscPos img t
    !! Z.to_nat (8 + y * widthBytes img + px / 8) =
  Some (raster_byte img t y (px / 8)).
Proof.
  intros Hy Hpx.
  assert (0 ≤ px / 8 < widthBytes img).
  { unfold widthBytes. split; [apply Z.div_pos; lia|].
    pose proof (Z.div_mod px 8). pose proof (Z.mod_pos_bound px 8).
    pose proof (Z.div_mod (width img + 7) 8).
    pose proof (Z.mod_pos_bound (width img + 7) 8). lia. }
  replace (Z.to_nat (8 + y * widthBytes img + px / 8))
    with (8 + Z.to_nat (y * widthBytes img + px / 8))%nat by nia.
  rewrite lookup_convert_data. by apply lookup_raster_data.
Qed.

(** The encoder reads [pixels] only at indices that are not alpha
    channels, so two buffers that agree there encode alike. *)
Lemma ink_alpha img img' t y px :
  width img' = width img →
  (∀ i, 0 ≤ i → i `mod` 4 ≠ 3 →
        data img' !! Z.to_nat i = data img !! Z.to_nat i) →
  ink img' t y px = ink img t y px.
Proof.
  intros Hw Hdata. unfold ink, channel, pixel_at. rewrite Hw.
  destruct (decide (px < width img)); [|done].
  set (i := (y * width img + px) * 4).
  assert (∀ c, 0 ≤ c < 3 → (i + c) `mod` 4 ≠ 3) as Hmod.
  { intros c Hc. unfold i. rewrite Z.add_comm, Z.mod_add by lia.
    rewrite Z.mod_small by lia. lia. }
  destruct (decide (0 ≤ i + 0)), (decide (0 ≤ i + 1)), (decide (0 ≤ i + 2));
    try lia; [|done].
  by rewrite !Hdata by (auto with lia).
Qed.

Lemma convert_alpha img img' t :
  width img' = width img → height img' = height img →
  (∀ i, 0 ≤ i → i `mod` 4 ≠ 3 →
        data img' !! Z.to_nat i = data img !! Z.to_nat i) →
  convertCanvasToEscPos img' t = convertCanvasToEscPos img t.
Proof.
  intros Hw Hh Hdata. rewrite !convert_output.
  unfold raster_data, raster_row, widthBytes. rewrite Hw, Hh.
  do 3 f_equal. apply list_fmap_ext. intros _ y _.
  apply list_fmap_ext. intros _ x _.
  apply byte_of_bits_ext. intros b _. by apply ink_alpha.
Qed.

(** C5. In a conformant buffer, for a threshold in [0,765] and a pixel
    inside the image, the output bit of that pixel (bit [7 - px mod 8] of
    the data byte of row [y], byte column [px / 8]) is 1 iff
    red+green+blue < threshold: a sum equal to the threshold gives 0, a sum
    one less gives 1. The alpha channel has no influence: two buffers of the
    same dimensions that agree on every index that is not an alpha channel
    encode to the same bytes. *)
Theorem C5_threshold_rule img t y px :
  conformant img → 0 ≤ t ≤ 765 →
  0 ≤ y < height img → 0 ≤ px < width img →
  ∃ r g b byte,
    channel img y px 0 = Some r ∧ channel img y px 1 = Some g ∧
    channel img y px 2 = Some b ∧
    convertCanvasToEscPos img t
      !! Z.to_nat (8 + y * widthBytes img + px / 8) = Some byte ∧
    (Z.testbit byte (7 - px `mod` 8) = true ↔ r + g + b < t) ∧
    (r + g + b = t → Z.testbit byte (7 - px `mod` 8) = false) ∧
    (r + g + b = t - 1 → Z.testbit byte (7 - px `mod` 8) = true) ∧
    ∀ img', width img' = width img → height img' = height img →
      (∀ i, 0 ≤ i → i `mod` 4 ≠ 3 →
            data img' !! Z.to_nat i = data img !! Z.to_nat i) →
      convertCanvasToEscPos img' t = convertCanvasToEscPos img t.
Proof.
  intros Hc Ht Hy Hpx.
  destruct (channel_conformant img y px 0) as [r Hr]; [done..|lia|].
  destruct (channel_conformant img y px 1) as [g Hg]; [done..|lia|].
  destruct (channel_conformant img y px 2) as [b Hb]; [done..|lia|].
  exists r, g, b, (raster_byte img t y (px / 8)).
  assert (Z.testbit (raster_byte img t y (px / 8)) (7 - px `mod` 8) =
          bool_decide (r + g + b < t)) as Hbit.
  { rewrite raster_byte_testbit by (apply Z.mod_pos_bound; lia).
    replace (px / 8 * 8 + px `mod` 8) with px
      by (pose proof (Z.div_mod px 8); lia).
    unfold ink. rewrite decide_True by lia. by rewrite Hr, Hg, Hb. }
  rewrite Hbit.
  repeat split; try done.
  - by apply lookup_pixel_byte.
  - apply bool_decide_eq_true_1.
  - apply bool_decide_eq_true_2.
  - intros. apply bool_decide_eq_false_2. lia.
  - intros. apply bool_decide_eq_true_2. lia.
  - intros img' Hw Hh Hdata. by apply convert_alpha.
Qed.

(** The first pixel of [edge2x1] has channel sum 382, the threshold: its
    bit is 0. *)
Lemma C5_threshold_rule_witness :
  conformant edge2x1 ∧
  ∃ byte,
    convertCanvasToEscPos edge2x1 382 !! 8%nat = Some byte ∧
    Z.testbit byte 7 = false.
Proof.
  assert (conformant edge2x1) as Hc by (unfold conformant; cbn; lia).
  split; [exact Hc|].
  destruct (C5_threshold_rule edge2x1 382 0 0 Hc)
    as (r & g & b & byte & Hr & Hg & Hb & Hbyte & _ & Heq & _);
    [cbn; lia..|].
  exists byte. split; [exact Hbyte|].
  apply Heq. vm_compute in Hr, Hg, Hb.
  injection Hr as <-. injection Hg as <-. injection Hb as <-. reflexivity.
Defined.

(** The reads of a run, located: each is a colour channel of a pixel of
    the image. *)
Lemma reads_located img t i :
  i ∈ reads (run_convertCanvasToEscPos img t) →
  ∃ y px c, 0 ≤ y < height img ∧ 0 ≤ px < width img ∧ 0 ≤ c < 3 ∧
            i = (y * width img + px) * 4 + c.
Proof.
  rewrite convert_reads. intros Hi.
  apply list_elem_of_join in Hi as (row & Hi & Hrow).
  apply list_elem_of_fmap in Hrow as (y & -> & Hy%elem_of_seqZ).
  unfold row_reads in Hi.
  apply list_elem_of_join in Hi as (cell & Hi & Hcell).
  apply list_elem_of_fmap in Hcell as (x & -> & Hx%elem_of_seqZ).
  unfold byte_reads in Hi.
  apply list_elem_of_join in Hi as (px & Hi & Hpx).
  apply list_elem_of_fmap in Hpx as (b & -> & Hb%elem_of_seqZ).
  unfold pixel_reads in Hi.
  destruct (decide (x * 8 + b >= width img)) as [|Hin].
  { by apply elem_of_nil in Hi. }
  exists y, (x * 8 + b).
  cbv zeta in Hi.
  apply elem_of_cons in Hi as [->|Hi]; [exists 0; lia|].
  apply elem_of_cons in Hi as [->|Hi]; [exists 1; lia|].
  apply elem_of_cons in Hi as [->|Hi]; [exists 2; lia|].
  by apply elem_of_nil in Hi.
Qed.

(** C6. The encoder's [xBytes] is [ceil(width / 8)], the least number of
    bytes that hold [width] bits (38 for width 300, 32 for 256, 27 for
    210). For a conformant buffer every padding position (column
    [>= width]) gives bit 0, and every index at which the run reads the
    pixel array is a colour channel of a pixel inside the image, hence
    within [0, width*height*4): no read is made for a padding position. *)
Theorem C6_padding_and_reads :
  (∀ img, xBytes img = widthBytes img ∧
          8 * (xBytes img - 1) < width img ≤ 8 * xBytes img)
  ∧ (∀ h d, xBytes (mkImageData 300 h d) = 38 ∧
            paddedWidth (mkImageData 300 h d) = 304 ∧
            xBytes (mkImageData 256 h d) = 32 ∧
            paddedWidth (mkImageData 256 h d) = 256 ∧
            xBytes (mkImageData 210 h d) = 27 ∧
            paddedWidth (mkImageData 210 h d) = 216)
  ∧ ∀ img t, conformant img →
      (∀ y x b, 0 ≤ y < height img → 0 ≤ x < xBytes img → 0 ≤ b < 8 →
         width img ≤ x * 8 + b →
         pixel_reads img y (x * 8 + b) = [] ∧
         ∃ byte,
           convertCanvasToEscPos img t
             !! Z.to_nat (8 + y * xBytes img + x) = Some byte ∧
           Z.testbit byte (7 - b) = false)
      ∧ (∀ i, i ∈ reads (run_convertCanvasToEscPos img t) →
           0 ≤ i < width img * height img * 4 ∧
           ∃ y px c, 0 ≤ y < height img ∧ 0 ≤ px < width img ∧
                     0 ≤ c < 3 ∧ i = (y * width img + px) * 4 + c).
Proof.
  split; [|split].
  - intros img. split; [apply xBytes_widthBytes|].
    rewrite xBytes_widthBytes. unfold widthBytes.
    pose proof (Z.div_mod (width img + 7) 8).
    pose proof (Z.mod_pos_bound (width img + 7) 8). lia.
  - intros h d. by vm_compute.
  - intros img t Hc. split.
    + intros y x b Hy Hx Hb Hpad. rewrite xBytes_widthBytes in *.
      split; [unfold pixel_reads; by rewrite decide_True by lia|].
      exists (raster_byte img t y x). split.
      * replace (Z.to_nat (8 + y * widthBytes img + x))
          with (8 + Z.to_nat (y * widthBytes img + x))%nat by nia.
        rewrite lookup_convert_data. by apply lookup_raster_data.
      * rewrite raster_byte_testbit by done.
        unfold ink. by rewrite decide_False by lia.
    + intros i Hi.
      destruct (reads_located img t i Hi) as (y & px & c & Hy & Hpx & Hcc & ->).
      split; [nia|]. by exists y, px, c.
Qed.

(** [edge2x1] is two pixels wide: column 2 of its only byte is padding. *)
Lemma C6_padding_and_reads_witness :
  conformant edge2x1 ∧
  ∃ byte,
    convertCanvasToEscPos edge2x1 382 !! 8%nat = Some byte ∧
    Z.testbit byte (7 - 2) = false.
Proof.
  assert (conformant edge2x1) as Hc by (unfold conformant; cbn; lia).
  split; [exact Hc|].
  destruct (proj2 (proj2 C6_padding_and_reads) edge2x1 382 Hc) as [Hpad _].
  destruct (Hpad 0 0 2) as [_ Hbyte]; [by vm_compute..|].
  exact Hbyte.
Defined.

(** C7, as the code has it. The encoder checks nothing and cannot fail: on
    every input, conformant or not, it returns the header, the four size
    entries [xBytes % 256], [floor(xBytes / 256)], [height % 256],
    [floor(height / 256)], and one data byte per row and byte column; a
    pixel with a colour channel missing from the array gives bit 0. A
    [widthBytes] or [height] above 65535 is not refused either: the high
    entry is then a number above 255. *)
Theorem C7_no_validation img t :
  convertCanvasToEscPos img t =
    raster_header ++
    [Z.rem (xBytes img) 256; xBytes img / 256;
     Z.rem (height img) 256; height img / 256] ++
    raster_data img t
  ∧ length (raster_data img t) =
      (Z.to_nat (height img) * Z.to_nat (xBytes img))%nat
  ∧ (∀ y px c, 0 ≤ c < 3 → channel img y px c = None →
               ink img t y px = false)
  ∧ (65535 < xBytes img → 255 < xBytes img / 256)
  ∧ (65535 < height img → 255 < height img / 256).
Proof.
  rewrite xBytes_widthBytes.
  split; [apply convert_output|].
  split; [apply length_raster_data|].
  split.
  - intros y px c Hc Hnone. unfold ink.
    destruct (decide (px < width img)); [|done].
    assert (c = 0 ∨ c = 1 ∨ c = 2) as [->|[->| ->]] by lia;
      rewrite Hnone; unfold js_add;
      by destruct (channel img y px 0), (channel img y px 1),
           (channel img y px 2).
  - split; intros Hbig.
    + assert (256 ≤ widthBytes img / 256)
        by (apply Z.div_le_lower_bound; lia). lia.
    + assert (256 ≤ height img / 256)
        by (apply Z.div_le_lower_bound; lia). lia.
Qed.

(** C7 fails as stated: a buffer that announces eight pixels and holds
    none is encoded, not refused; and so is a conformant buffer of height
    65536, whose size entries are 0 and 256. *)
Lemma C7_counterexample :
  (¬ conformant short8x1 ∧
   convertCanvasToEscPos short8x1 default_threshold =
     [0x1d; 0x76; 0x30; 0x00; 1; 0; 1; 0; 0])
  ∧ (conformant tall1x65536 ∧ 65535 < height tall1x65536 ∧
     take 8 (convertCanvasToEscPos tall1x65536 default_threshold) =
       [0x1d; 0x76; 0x30; 0x00; 1; 0; 0; 256]).
Proof.
  split; [split|split; [|split]].
  - unfold conformant. cbn. lia.
  - by vm_compute.
  - unfold conformant, tall1x65536. cbn [width height data].
    rewrite length_replicate. lia.
  - cbn. lia.
  - rewrite convert_output. reflexivity.
Qed.

End UtilsFacts.

(** ** Discovery, printing and the printer list *)

Module IndexFacts.
Import Index.

(** The test of the scan loop is the valid match of the specification. *)
Lemma valid_match_answers r :
  valid_match r = true ↔ answers_as_driver r.
Proof.
  unfold answers_as_driver. split.
  - destruct r as [why|[o b]]; cbn; [done|].
    destruct o; [|done]. destruct b as [data|]; [|done].
    unfold is_driver.
    destruct data as [| | | | |fields]; cbn; try done.
    destruct (assoc "service" fields) as [|[| | |s| |]] eqn:Hservice;
      try done.
    destruct (String.eqb_spec s "CDH-Driver") as [->|]; [|done].
    by exists (mkResponse true (Some (JObj fields))), fields.
  - intros (res & fields & -> & Hok & Hbody & Hservice).
    cbn. rewrite Hok, Hbody. unfold is_driver. cbn. by rewrite Hservice.
Qed.

Lemma not_valid_match r :
  valid_match r = false ↔ ¬ answers_as_driver r.
Proof.
  rewrite <- valid_match_answers. by destruct (valid_match r).
Qed.

Lemma scanned_requests n port tr found :
  scanned n port tr found →
  tr.*1 = probe_of <$> seqZ port (Z.of_nat (length tr)).
Proof.
  induction 1 as [port|n port r Hr|n port r tr found Hr Hscan IH].
  - done.
  - done.
  - cbn [length]. rewrite seqZ_cons by lia. csimpl. rewrite IH.
    do 3 f_equal; lia.
Qed.

Lemma scanned_length n port tr found :
  scanned n port tr found → (length tr ≤ n)%nat.
Proof. induction 1; cbn; lia. Qed.

(** A scan that ends with [false] has tried every port. *)
Lemma scanned_false n port tr found :
  scanned n port tr found → found = false →
  length tr = n ∧ Forall (λ x, valid_match x.2 = false) tr.
Proof.
  induction 1 as [port|n port r Hr|n port r tr found Hr Hscan IH];
    intros Hfound.
  - done.
  - done.
  - destruct (IH Hfound) as [<- Hall]. split; [done|].
    constructor; [exact Hr|exact Hall].
Qed.

(** A scan that ends with [true] ends at its first valid match. *)
Lemma scanned_true n port tr found :
  scanned n port tr found → found = true →
  ∃ tr' rq r, tr = tr' ++ [(rq, r)] ∧ valid_match r = true ∧
              Forall (λ x, valid_match x.2 = false) tr'.
Proof.
  induction 1 as [port|n port r Hr|n port r tr found Hr Hscan IH];
    intros Hfound.
  - done.
  - by exists [], (probe_of port), r.
  - destruct (IH Hfound) as (tr' & rq & r' & -> & Hr' & Hall).
    exists ((probe_of port, r) :: tr'), rq, r'.
    split; [done|]. split; [done|]. constructor; [exact Hr|exact Hall].
Qed.

(** A miss is followed by the next probe unless the range is used up, and
    a valid match ends the scan. *)
Lemma scanned_step n port tr found i (x : Request * FetchResult) :
  scanned n port tr found → tr !! i = Some x →
  if valid_match x.2 then S i = length tr ∧ found = true
  else (S i < n → S i < length tr)%nat.
Proof.
  intros Hscan. revert i.
  induction Hscan as [port|n port r Hr|n port r tr found Hr Hscan IH];
    intros i Hi.
  - done.
  - destruct i; [|done]. injection Hi as <-. cbn. by rewrite Hr.
  - destruct i as [|i].
    + injection Hi as <-. cbn [snd]. rewrite Hr. intros Hn. cbn.
      inversion Hscan; subst; cbn; lia.
    + specialize (IH i Hi). destruct (valid_match x.2).
      * destruct IH as [-> ->]. done.
      * cbn [length]. lia.
Qed.

Lemma scanned_nonempty n port tr found :
  scanned (S n) port tr found → tr ≠ [].
Proof. by inversion 1. Qed.

(** The result of a scan is [true] exactly when its last probe is a valid
    match. *)
Lemma scanned_found n port tr found :
  scanned n port tr found →
  found = true ↔ ∃ x, last tr = Some x ∧ valid_match x.2 = true.
Proof.
  intros Hscan. split.
  - intros Hfound.
    destruct (scanned_true _ _ _ _ Hscan Hfound) as (tr' & rq & r & -> & Hr & _).
    exists (rq, r). by rewrite last_snoc.
  - intros (x & Hlast & Hx). rewrite last_lookup in Hlast.
    pose proof (scanned_step _ _ _ _ _ x Hscan Hlast) as Hstep.
    rewrite Hx in Hstep. by destruct Hstep.
Qed.

Section discovery.
Context `{Network}.

(** The scan loop runs as [scanned] says. *)
Lemma scan_scanned n port e :
  ∃ tr, trace (scan n port e).2 = trace e ++ tr ∧
        scanned n port tr (scan n port e).1.
Proof.
  revert port e. induction n as [|n IH]; intros port e.
  - exists []. cbn. rewrite app_nil_r. split; [done|constructor].
  - cbn [scan]. unfold bind, await_fetch.
    destruct (fetch _ (world e)) as [r w] eqn:Hfetch.
    destruct (valid_match r) eqn:Hr.
    + exists [(probe_of port, r)]. cbn. split; [done|by constructor].
    + destruct (IH (port + 1)
        (mkEnv _ w (trace e ++ [(probe_of port, r)]))) as (tr & Htr & Hscan).
      exists ((probe_of port, r) :: tr). split.
      * unfold probe_of in *. rewrite Htr. cbn. by rewrite <- app_assoc.
      * by constructor.
Qed.

(** [findDriver], with the monad unfolded. *)
Lemma findDriver_unfold this e :
  findDriver this e =
  if truthy (of_nullable (driverApi this)) then
    let '(r, w) := fetch (liveness_probe this) (world e) in
    let e1 := mkEnv _ w (trace e ++ [(liveness_probe this, r)]) in
    match r with
    | Resolved res =>
        if ok res then ((true, this), e1)
        else let '(found, e2) := scan 8 9123 e1 in ((found, this), e2)
    | Rejected _ =>
        let '(found, e2) := scan 8 9123 e1 in
        ((found, mkPrinter None (printerWidth this) (buffer this)), e2)
    end
  else let '(found, e2) := scan 8 9123 e in ((found, this), e2).
Proof.
  unfold findDriver, ping, bind, ret, await_fetch, liveness_probe.
  change (Z.to_nat (portRangeHigh + 1 - portRangeLow)) with 8%nat.
  change portRangeLow with 9123.
  destruct (truthy _).
  - destruct (fetch _ (world e)) as [[why|res] w]; [done|].
    by destruct (ok res).
  - done.
Qed.

(** What a call of [findDriver] issues: at most the liveness probe, then,
    unless that probe succeeded, a run of the scan from port 9123 over
    eight ports. *)
Lemma findDriver_run this e :
  ∃ ping_part scan_part,
    trace (findDriver this e).2 = trace e ++ ping_part ++ scan_part ∧
    (ping_part = [] ∧ scanned 8 9123 scan_part (findDriver this e).1.1
     ∨ ∃ r, ping_part = [(liveness_probe this, r)] ∧
            (fetch (liveness_probe this) (world e)).1 = r ∧
            truthy (of_nullable (driverApi this)) = true ∧
            if decide (failed r)
            then scanned 8 9123 scan_part (findDriver this e).1.1
            else scan_part = [] ∧ (findDriver this e).1.1 = true).
Proof.
  rewrite findDriver_unfold.
  destruct (truthy _) eqn:Hcached.
  - destruct (fetch _ (world e)) as [r w] eqn:Hfetch. cbv zeta.
    generalize (scan_scanned 8 9123
      (mkEnv _ w (trace e ++ [(liveness_probe this, r)]))).
    destruct r as [why|res]; [|destruct (ok res) eqn:Hok].
    + destruct (scan 8 9123 _) as [found e2].
      intros (tr & Htr & Hscan). cbn [fst snd trace] in *.
      exists [(liveness_probe this, Rejected why)], tr.
      split; [by rewrite Htr, <- app_assoc|].
      right. exists (Rejected why). by rewrite decide_True.
    + intros _. exists [(liveness_probe this, Resolved res)], [].
      split; [done|].
      right. exists (Resolved res).
      rewrite decide_False by (cbn; congruence). done.
    + destruct (scan 8 9123 _) as [found e2].
      intros (tr & Htr & Hscan). cbn [fst snd trace] in *.
      exists [(liveness_probe this, Resolved res)], tr.
      split; [by rewrite Htr, <- app_assoc|].
      right. exists (Resolved res). by rewrite decide_True.
  - generalize (scan_scanned 8 9123 e).
    destruct (scan 8 9123 e) as [found e2].
    intros (tr & Htr & Hscan). cbn [fst snd] in *.
    exists [], tr. split; [done|]. by left.
Qed.

(** The two ways a call of [findDriver] goes: the liveness probe of a
    cached endpoint succeeds and nothing else is issued, or the scan runs
    from port 9123 over eight ports. *)
Lemma findDriver_phases this e :
  let r := (fetch (liveness_probe this) (world e)).1 in
  let cached := truthy (of_nullable (driverApi this)) in
  ∃ scan_part,
    trace (findDriver this e).2 =
      trace e ++ (if cached then [(liveness_probe this, r)] else [])
              ++ scan_part ∧
    ((cached = true ∧ ¬ failed r) ∧
       scan_part = [] ∧ (findDriver this e).1.1 = true
     ∨ ¬ (cached = true ∧ ¬ failed r) ∧
       scanned 8 9123 scan_part (findDriver this e).1.1).
Proof.
  cbv zeta. rewrite findDriver_unfold.
  destruct (truthy _) eqn:Hcached.
  - destruct (fetch _ (world e)) as [r w] eqn:Hfetch. cbv zeta. cbn [fst].
    generalize (scan_scanned 8 9123
      (mkEnv _ w (trace e ++ [(liveness_probe this, r)]))).
    destruct r as [why|res]; [|destruct (ok res) eqn:Hok].
    + destruct (scan 8 9123 _) as [found e2].
      intros (tr & Htr & Hscan). cbn [fst snd trace] in *.
      exists tr. split; [by rewrite Htr, <- app_assoc|].
      right. split; [|done]. intros [_ Hlive]. by apply Hlive.
    + intros _. exists []. split; [done|].
      left. split; [|done]. split; [done|]. cbn. congruence.
    + destruct (scan 8 9123 _) as [found e2].
      intros (tr & Htr & Hscan). cbn [fst snd trace] in *.
      exists tr. split; [by rewrite Htr, <- app_assoc|].
      right. split; [|done]. intros [_ Hlive]. by apply Hlive.
  - generalize (scan_scanned 8 9123 e).
    destruct (scan 8 9123 e) as [found e2].
    intros (tr & Htr & Hscan). cbn [fst snd] in *.
    exists tr. split; [done|]. right. split; [by intros [? _]|done].
Qed.

(** C2. Whatever the state of the client, a call of [findDriver] issues
    the liveness probe if an endpoint is cached, and then the scan, which is
    left out only when that probe succeeded. The scan probes the ports
    9123, 9124, ... in ascending order, at most the eight up to 9130. A
    valid match is a successful response whose body carries the service
    signature; a probe that is rejected (timeout or error) is none. A probe
    that is not a valid match is followed by the probe of the next port,
    and a valid match is the last probe. The result is [true] exactly when
    the scan was left out or ended on a valid match, and [false] exactly
    when all eight ports were probed and none gave a valid match. *)
Theorem C2_scan_order this e :
  ∃ ping_part scan_part,
    trace (findDriver this e).2 = trace e ++ ping_part ++ scan_part ∧
    ping_part =
      (if truthy (of_nullable (driverApi this))
       then [(liveness_probe this,
              (fetch (liveness_probe this) (world e)).1)]
       else []) ∧
    (scan_part = [] ↔
       ∃ r, ping_part = [(liveness_probe this, r)] ∧ ¬ failed r) ∧
    scan_part.*1 =
      probe_of <$> seqZ portRangeLow (Z.of_nat (length scan_part)) ∧
    (length scan_part ≤ 8)%nat ∧
    (∀ why, ¬ answers_as_driver (Rejected why)) ∧
    (∀ i x, scan_part !! i = Some x → ¬ answers_as_driver x.2 →
            (S i < 8 → S i < length scan_part)%nat) ∧
    (∀ i x, scan_part !! i = Some x → answers_as_driver x.2 →
            S i = length scan_part) ∧
    ((findDriver this e).1.1 = true ↔
       scan_part = [] ∨
       ∃ x, last scan_part = Some x ∧ answers_as_driver x.2) ∧
    ((findDriver this e).1.1 = false ↔
       length scan_part = 8%nat ∧
       Forall (λ x, ¬ answers_as_driver x.2) scan_part).
Proof.
  destruct (findDriver_phases this e) as (scan_part & Htr & Hrun).
  eexists _, scan_part.
  split; [exact Htr|]. split; [done|].
  assert (∀ why, ¬ answers_as_driver (Rejected why)) as Hrejected
    by (by intros why (res & fields & [=] & _)).
  destruct Hrun as [([Hcached Hlive] & -> & Hfound)|[Hslow Hscan]].
  - rewrite Hcached, Hfound.
    split; [split; [intros _; eexists; by split|done]|].
    split; [done|]. split; [cbn; lia|]. split; [exact Hrejected|].
    split; [done|]. split; [done|].
    split; [split; [by left|done]|].
    split; [done|]. by intros [[=] _].
  - split.
    { split.
      - intros ->. by apply scanned_nonempty in Hscan.
      - intros (r & Hping & Hlive). destruct Hslow.
        destruct (truthy _); [|done]. by injection Hping as <-. }
    split; [by apply (scanned_requests 8 _ _ _ Hscan)|].
    split; [by apply (scanned_length _ _ _ _ Hscan)|].
    split; [exact Hrejected|].
    split.
    { intros i x Hi Hx%not_valid_match.
      pose proof (scanned_step _ _ _ _ i x Hscan Hi) as Hstep.
      by rewrite Hx in Hstep. }
    split.
    { intros i x Hi Hx%valid_match_answers.
      pose proof (scanned_step _ _ _ _ i x Hscan Hi) as Hstep.
      rewrite Hx in Hstep. by destruct Hstep. }
    split.
    { rewrite (scanned_found _ _ _ _ Hscan). split.
      - intros (x & Hlast & Hx%valid_match_answers). right. by exists x.
      - intros [->|(x & Hlast & Hx%valid_match_answers)]; [|by exists x].
        by apply scanned_nonempty in Hscan. }
    split.
    { intros Hfound.
      destruct (scanned_false _ _ _ _ Hscan Hfound) as [Hlen Hall].
      split; [done|]. eapply Forall_impl; [exact Hall|].
      intros x. apply not_valid_match. }
    intros [_ Hall]. destruct (findDriver this e).1.1 eqn:Hfound; [|done].
    destruct (scanned_true _ _ _ _ Hscan eq_refl)
      as (tr' & rq & r' & -> & Hr'%valid_match_answers & _).
    rewrite Forall_app, Forall_singleton in Hall.
    by destruct Hall as [_ Hlast].
Qed.

(** [findDriver] never stores an endpoint: [driverApi] stays as it was or
    becomes [null]. *)
Lemma findDriver_never_caches this e :
  driverApi (findDriver this e).1.2 = driverApi this ∨
  driverApi (findDriver this e).1.2 = None.
Proof.
  rewrite findDriver_unfold.
  destruct (truthy _).
  - destruct (fetch _ (world e)) as [[why|res] w]; cbv zeta.
    + destruct (scan 8 9123 _). by right.
    + destruct (ok res); [by left|]. destruct (scan 8 9123 _). by left.
  - destruct (scan 8 9123 e). by left.
Qed.

Lemma findDriver_keeps_buffer this e :
  buffer (findDriver this e).1.2 = buffer this ∧
  printerWidth (findDriver this e).1.2 = printerWidth this.
Proof.
  rewrite findDriver_unfold.
  destruct (truthy _).
  - destruct (fetch _ (world e)) as [[why|res] w]; cbv zeta.
    + by destruct (scan 8 9123 _).
    + destruct (ok res); [done|]. by destruct (scan 8 9123 _).
  - by destruct (scan 8 9123 e).
Qed.

(** Step 1 on a cached endpoint whose liveness probe fails. *)
Lemma ping_failed this e :
  truthy (of_nullable (driverApi this)) = true →
  let r := (fetch (liveness_probe this) (world e)).1 in
  failed r →
  ping this e =
    ((false,
      mkPrinter (match r with
                 | Rejected _ => None
                 | Resolved _ => driverApi this
                 end) (printerWidth this) (buffer this)),
     mkEnv _ (fetch (liveness_probe this) (world e)).2
             (trace e ++ [(liveness_probe this, r)])).
Proof.
  intros Hcached r Hfailed. subst r.
  unfold ping, bind, ret, await_fetch. rewrite Hcached.
  destruct (fetch _ (world e)) as [[why|res] w]; cbn in *; [done|].
  rewrite Hfailed. by destruct this.
Qed.

(** C3, as the code has it. With a cached endpoint whose liveness probe
    fails, step 1 of [findDriver] sets [driverApi] to [null] only when the
    probe was rejected (a network error; the probe carries no timeout of
    its own); after a response with a non-success status it leaves the
    cached endpoint in place. In both cases the scan follows; the result is
    [true] exactly when the scan ends on a valid match and [false] exactly
    when all eight ports were probed without one, and with the result
    [false] the instance is as step 1 left it. *)
Theorem C3_liveness_failure this e :
  truthy (of_nullable (driverApi this)) = true →
  let r := (fetch (liveness_probe this) (world e)).1 in
  failed r →
  let step1 := ping this e in
  let run := findDriver this e in
  step1.1.1 = false ∧
  step1.1.2 =
    mkPrinter (match r with
               | Rejected _ => None
               | Resolved _ => driverApi this
               end) (printerWidth this) (buffer this) ∧
  trace step1.2 = trace e ++ [(liveness_probe this, r)] ∧
  abort_after (liveness_probe this) = None ∧
  ∃ scan_part,
    trace run.2 = trace step1.2 ++ scan_part ∧
    scan_part ≠ [] ∧
    scan_part.*1 =
      probe_of <$> seqZ portRangeLow (Z.of_nat (length scan_part)) ∧
    (run.1.1 = true ↔
       ∃ x, last scan_part = Some x ∧ answers_as_driver x.2) ∧
    (run.1.1 = false ↔
       length scan_part = 8%nat ∧
       Forall (λ x, ¬ answers_as_driver x.2) scan_part) ∧
    (run.1.1 = false → run.1.2 = step1.1.2).
Proof.
  intros Hcached r Hfailed step1 run.
  assert (∃ scan_part,
    trace run.2 = trace step1.2 ++ scan_part ∧
    scanned 8 9123 scan_part run.1.1 ∧
    run.1.2 = step1.1.2) as (scan_part & Htr & Hscan & Hthis).
  { subst run step1. unfold findDriver, bind.
    rewrite (ping_failed this e Hcached Hfailed). cbn [fst snd].
    change (Z.to_nat (portRangeHigh + 1 - portRangeLow)) with 8%nat.
    change portRangeLow with 9123.
    match goal with |- context [scan 8 9123 ?e1] =>
      destruct (scan_scanned 8 9123 e1) as (tr & Htr & Hscan);
      destruct (scan 8 9123 e1) as [found e2]
    end.
    exists tr. by cbn [fst snd ret] in *. }
  subst step1. rewrite (ping_failed this e Hcached Hfailed) in *.
  cbn [fst snd trace] in *.
  split; [done|]. split; [done|]. split; [done|]. split; [done|].
  exists scan_part. split; [exact Htr|].
  split; [by apply (scanned_nonempty _ _ _ _ Hscan)|].
  split; [by apply (scanned_requests _ _ _ _ Hscan)|].
  split.
  { rewrite (scanned_found _ _ _ _ Hscan).
    split; intros (x & Hlast & Hx%valid_match_answers); by exists x. }
  split; [|done].
  split.
  - intros Hfound.
    destruct (scanned_false _ _ _ _ Hscan Hfound) as [Hlen Hall].
    split; [done|]. eapply Forall_impl; [exact Hall|].
    intros x. apply not_valid_match.
  - intros [_ Hall]. destruct run.1.1 eqn:Hfound; [|done].
    destruct (scanned_true _ _ _ _ Hscan eq_refl)
      as (tr' & rq & r' & -> & Hr'%valid_match_answers & _).
    rewrite Forall_app, Forall_singleton in Hall.
    by destruct Hall as [_ Hlast].
Qed.

End discovery.

(** Port 9123 is cached and answers its liveness probe with status 500;
    nothing answers the scan: the endpoint stays cached. *)
Lemma C3_liveness_failure_witness :
  let this := mkPrinter (Some "http://localhost:9123"%string) 384 [] in
  let run := @findDriver net_9123_http500 this (@start net_9123_http500 ()) in
  failed (Resolved (http500 error_body)) ∧
  run.1.1 = false ∧
  run.1.2 = this ∧
  abort_after (liveness_probe this) = None.
Proof.
  intros this run.
  split; [reflexivity|]. split; [reflexivity|].
  destruct (@C3_liveness_failure net_9123_http500 this
              (@start net_9123_http500 ()) eq_refl eq_refl)
    as (_ & Hstep1 & _ & Hprobe & scan_part & _ & _ & _ & _ & _ & Hfalse).
  split; [|exact Hprobe].
  exact (eq_trans (Hfalse eq_refl) Hstep1).
Defined.

(** C3 fails as stated: the cached endpoint answers its liveness probe
    with status 500, and after the call it is still cached. *)
Lemma C3_counterexample :
  let this := mkPrinter (Some "http://localhost:9123"%string) 384 [] in
  let run := @findDriver net_9123_http500 this (@start net_9123_http500 ()) in
  head (trace run.2) =
    Some (liveness_probe this, Resolved (http500 error_body)) ∧
  failed (Resolved (http500 error_body)) ∧
  run.1.1 = false ∧
  driverApi run.1.2 = Some "http://localhost:9123"%string.
Proof. by vm_compute. Qed.

Section printing.
Context `{Network, Platform}.

Lemma findDriver_extends this e :
  ∃ tr, trace (findDriver this e).2 = trace e ++ tr.
Proof.
  destruct (findDriver_run this e) as (t1 & t2 & Htr & _). eauto.
Qed.

Lemma fetch_printers_run apiUrl e :
  ∃ fr,
    fetch_printers apiUrl e =
      (Normal (printers_result fr),
       mkEnv _ (fetch (printers_request apiUrl) (world e)).2
               (trace e ++ [(printers_request apiUrl, fr)])) ∧
    fr = (fetch (printers_request apiUrl) (world e)).1.
Proof.
  unfold fetch_printers, bind, ret, await_fetch, printers_request.
  destruct (fetch _ (world e)) as [[why|res] w]; cbn [fst snd].
  - by exists (Rejected why).
  - exists (Resolved res). unfold printers_result. by destruct (body res).
Qed.

Lemma getPrinters_extends overrideUrl e :
  ∃ tr, trace (getPrinters overrideUrl e).2 = trace e ++ tr.
Proof.
  unfold getPrinters.
  destruct (negb (truthy (of_nullable overrideUrl))).
  - unfold bind.
    destruct (findDriver_extends (new_ThermalPrinter 384) e) as (t1 & Ht1).
    destruct (findDriver _ e) as [[found temp] e1]. cbn [snd] in Ht1.
    destruct found.
    + destruct (fetch_printers_run (driverApi temp) e1) as (fr & -> & _).
      cbn. rewrite Ht1, <- app_assoc. eauto.
    + cbn. eauto.
  - destruct (fetch_printers_run overrideUrl e) as (fr & -> & _).
    cbn. eauto.
Qed.

(** The [try] block of [print]: it ends normally, with the buffer cleared,
    exactly when its request resolved with a success status; otherwise it
    throws and the instance is as before. *)
Lemma deliver_run name this e :
  (∃ err, (deliver name this e).1.1 = Throw err ∧
          (deliver name this e).1.2 = this)
  ∨ (deliver name this e).1.1 = Normal true ∧
    (deliver name this e).1.2 = clear this ∧
    ∃ encodedName res,
      trace (deliver name this e).2 =
        trace e ++ [(print_request (driverApi this) encodedName
                       (getBuffer this), Resolved res)] ∧
      ok res = true.
Proof.
  unfold deliver.
  destruct (encodeURIComponent name) as [encodedName|err]; [|left; by eexists].
  unfold bind, ret, await_fetch.
  destruct (fetch _ (world e)) as [[why|res] w]; [left; by eexists|].
  destruct (ok res) eqn:Hok; [|left; by eexists].
  right. cbn. split; [done|]. split; [done|].
  by exists encodedName, res.
Qed.

(** The two ways a call of [print] ends. *)
Lemma print_run name this e :
  (∃ err, (print name this e).1.1 = Throw err ∧
          buffer (print name this e).1.2 = buffer this)
  ∨ (print name this e).1.1 = Normal true ∧
    buffer (print name this e).1.2 = [] ∧
    (findDriver this e).1.1 = true ∧
    ∃ before rq res,
      trace (print name this e).2 = trace e ++ before ++ [(rq, Resolved res)] ∧
      method rq = POST "application/octet-stream" (getBuffer this) ∧
      ok res = true.
Proof.
  unfold print, bind, ret.
  destruct (findDriver_keeps_buffer this e) as [Hbuf _].
  destruct (findDriver_extends this e) as (t1 & Ht1).
  destruct (findDriver this e) as [[found this1] e1].
  cbn [fst snd] in *.
  destruct found; cbn [negb]; [|left; by eexists].
  assert (∀ printerName e2 t2, trace e2 = trace e ++ t2 →
    (∃ err, (deliver printerName this1 e2).1.1 = Throw err ∧
            buffer (deliver printerName this1 e2).1.2 = buffer this)
    ∨ (deliver printerName this1 e2).1.1 = Normal true ∧
      buffer (deliver printerName this1 e2).1.2 = [] ∧
      true = true ∧
      ∃ before rq res,
        trace (deliver printerName this1 e2).2 =
          trace e ++ before ++ [(rq, Resolved res)] ∧
        method rq = POST "application/octet-stream" (getBuffer this) ∧
        ok res = true) as Hdeliver.
  { intros printerName e2 t2 Ht2.
    destruct (deliver_run printerName this1 e2)
      as [(err & -> & ->)|(-> & -> & enc & res & -> & Hok)].
    - left. by eexists.
    - right. split; [done|]. split; [done|]. split; [done|].
      exists t2, (print_request (driverApi this1) enc (getBuffer this1)), res.
      rewrite Ht2, <- app_assoc. split; [done|]. split; [|done].
      unfold getBuffer. by rewrite Hbuf. }
  destruct (truthy name); cbn [negb]; [by apply (Hdeliver _ _ t1)|].
  destruct (getPrinters_extends (driverApi this1) e1) as (t2 & Ht2).
  destruct (getPrinters (driverApi this1) e1) as [[printers|err] e2];
    cbn [snd] in Ht2; [|left; by eexists].
  destruct (first_printer_name printers) as [printerName|err];
    [|left; by eexists].
  apply (Hdeliver _ _ (t1 ++ t2)). by rewrite Ht2, Ht1, <- app_assoc.
Qed.

(** C8. [print] throws when discovery returns [false]. The buffer is
    cleared only by a delivery that succeeds: whenever [print] throws the
    buffer is exactly as it was; when [print] returns, its last request was
    the POST of the buffer and resolved with a success status, and the buffer
    is empty; and when the POST is rejected or resolves with a non-success
    status, [print] throws and the buffer is as it was. *)
Theorem C8_print_preserves_buffer name this e :
  let run := print name this e in
  ((findDriver this e).1.1 = false →
     run.1.1 = Throw (Error msg_no_driver) ∧ run.1.2 = (findDriver this e).1.2) ∧
  (∀ err, run.1.1 = Throw err → buffer run.1.2 = buffer this) ∧
  (∀ v, run.1.1 = Normal v →
     buffer run.1.2 = [] ∧
     ∃ before rq res,
       trace run.2 = trace e ++ before ++ [(rq, Resolved res)] ∧
       method rq = POST "application/octet-stream" (getBuffer this) ∧
       ok res = true) ∧
  (∀ before rq fr,
     trace run.2 = trace e ++ before ++ [(rq, fr)] →
     is_post rq → failed fr →
     (∃ err, run.1.1 = Throw err) ∧ buffer run.1.2 = buffer this).
Proof.
  intros run.
  assert (∀ err, run.1.1 = Throw err → buffer run.1.2 = buffer this) as Hthrow.
  { intros err Herr.
    destruct (print_run name this e) as [(err' & _ & Hbuf)|(Hok & _)];
      [done|]. subst run. congruence. }
  assert (∀ v, run.1.1 = Normal v →
     buffer run.1.2 = [] ∧
     ∃ before rq res,
       trace run.2 = trace e ++ before ++ [(rq, Resolved res)] ∧
       method rq = POST "application/octet-stream" (getBuffer this) ∧
       ok res = true) as Hnormal.
  { intros v Hv.
    destruct (print_run name this e) as [(err' & Herr & _)|(_ & Hbuf & _ & Hpost)];
      [subst run; congruence|done]. }
  split; [|split; [exact Hthrow|split; [exact Hnormal|]]].
  - intros Hnone. subst run. unfold print, bind, ret.
    destruct (findDriver this e) as [[found this1] e1].
    cbn in Hnone. by subst found.
  - intros before rq fr Htr Hpost Hfailed.
    destruct run.1.1 as [v|err] eqn:Hrun.
    + destruct (Hnormal v eq_refl) as (_ & before' & rq' & res & Htr' & _ & Hok).
      rewrite Htr' in Htr. apply app_inv_head in Htr.
      apply app_inj_tail in Htr as [_ [= _ <-]].
      cbn in Hfailed. congruence.
    + split; [by eexists|]. by apply (Hthrow err).
Qed.

(** C10, as the code has it. [getPrinters] never throws. It returns the
    empty array when no override is given and discovery fails (and then
    sends no request for the list), and when the request for the list is
    rejected or its body is not JSON. In every other case it returns the
    parsed body of the response, whatever the status of the response and
    whatever the body is. *)
Theorem C10_getPrinters_total overrideUrl e :
  let run := getPrinters overrideUrl e in
  let discovery := findDriver (new_ThermalPrinter 384) e in
  ∃ v, run.1 = Normal v ∧
    if truthy (of_nullable overrideUrl) then
      ∃ fr, trace run.2 = trace e ++ [(printers_request overrideUrl, fr)] ∧
            v = printers_result fr
    else if discovery.1.1 then
      ∃ fr, trace run.2 =
              trace discovery.2 ++
              [(printers_request (driverApi discovery.1.2), fr)] ∧
            v = printers_result fr
    else v = JArr [] ∧ run.2 = discovery.2.
Proof.
  intros run discovery. subst run discovery. unfold getPrinters.
  destruct (truthy (of_nullable overrideUrl)); cbn [negb].
  - destruct (fetch_printers_run overrideUrl e) as (fr & -> & _).
    exists (printers_result fr). split; [done|]. by exists fr.
  - unfold bind, ret.
    destruct (findDriver (new_ThermalPrinter 384) e) as [[found temp] e1].
    cbn [fst snd]. destruct found.
    + destruct (fetch_printers_run (driverApi temp) e1) as (fr & -> & _).
      exists (printers_result fr). split; [done|]. by exists fr.
    + by exists (JArr []).
Qed.

End printing.

Section builders.
Context `{Engine, Constants, Platform}.

(** A state that extends [this]: bytes appended to the buffer, nothing
    else changed. *)
Lemma push_loop_appends (bytes : list (option Z)) lo hi this :
  ∃ suffix,
    for_loop lo hi (λ _, buffer_push bytes) this =
    mkPrinter (driverApi this) (printerWidth this) (buffer this ++ suffix).
Proof.
  rewrite for_loop_foldl.
  generalize (seqZ lo (hi - lo)). intros idx. revert this.
  induction idx as [|i idx IH]; intros this; cbn [foldl].
  - exists []. rewrite app_nil_r. by destruct this.
  - destruct (IH (buffer_push bytes this)) as (suffix & ->).
    exists (bytes ++ suffix). cbn. by rewrite <- app_assoc.
Qed.

(** The spread of an array of numbers: pushed whole, or refused. *)
Lemma push_spread_numbers bytes this :
  ¬ too_long bytes ∧
    push_spread (numbers bytes) this =
      Normal (buffer_push (numbers bytes) this)
  ∨ too_long bytes ∧ push_spread (numbers bytes) this = Throw RangeError.
Proof.
  unfold push_spread, too_long, numbers. rewrite length_fmap.
  destruct (decide _); [left|right]; (split; [lia|done]).
Qed.

Lemma string_app_assoc (a b c : string) :
  ((a ++ b) ++ c)%string = (a ++ (b ++ c))%string.
Proof. induction a as [|x a IH]; cbn; [done|by rewrite IH]. Qed.

Lemma string_app_nil_r (a : string) : (a ++ "")%string = a.
Proof. induction a as [|x a IH]; cbn; [done|by rewrite IH]. Qed.

(** [repeat] with a count that is not negative. *)
Lemma repeat_string_copies s count :
  0 ≤ count → repeat_string s count = Normal (copies (Z.to_nat count) s).
Proof.
  intros Hcount. unfold repeat_string, for_loop.
  rewrite decide_False, Z.sub_0_r by lia. f_equal.
  change (copies (Z.to_nat count) s)
    with (("" ++ copies (Z.to_nat count) s)%string).
  generalize (Z.to_nat count) 0 ""%string. intros n.
  induction n as [|n IH]; intros i acc; cbn [for_range copies].
  - by rewrite string_app_nil_r.
  - by rewrite IH, string_app_assoc.
Qed.

(** C9, as the code has it. A command-building call that returns returns
    the instance with bytes appended to the buffer: the previous buffer is
    a prefix of the new one and [driverApi] and [printerWidth] are
    unchanged. A call that does not return throws a [RangeError], and the
    calls that do not return are [divider] with a negative [width] (from
    [String.prototype.repeat]) and [line], [divider], [raw] and [image]
    with more entries to push than one call takes arguments. *)
Theorem C9_builders_append c this :
  match invoke c this with
  | Normal this' =>
      ∃ suffix,
        this' = mkPrinter (driverApi this) (printerWidth this)
                          (buffer this ++ suffix)
  | Throw err => err = RangeError
  end
  ∧ ((∃ this', invoke c this = Normal this') ↔ ¬ throws c).
Proof.
  assert (∀ bytes, ∃ suffix, buffer_push bytes this =
            mkPrinter (driverApi this) (printerWidth this)
                      (buffer this ++ suffix)) as Hpush by (intros; by eexists).
  assert (∀ bytes,
    match push_spread (numbers bytes) this with
    | Normal this' =>
        ∃ suffix,
          this' = mkPrinter (driverApi this) (printerWidth this)
                            (buffer this ++ suffix)
    | Throw err => err = RangeError
    end
    ∧ ((∃ this', push_spread (numbers bytes) this = Normal this') ↔
       ¬ too_long bytes)) as Hspread.
  { intros bytes.
    destruct (push_spread_numbers bytes this) as [[Hfits ->]|[Hlong ->]].
    - split; [apply Hpush|]. split; [done|by eexists].
    - split; [done|]. split; [by intros (? & [=])|done]. }
  destruct c as [|a|b|n|p|t|n|ch w|t d| |bs|img]; cbn [invoke throws];
    try apply Hspread;
    try (split; [first [apply Hpush | apply push_loop_appends]
                |split; [by intros _ []|by eexists]]).
  unfold divider. destruct (decide (w < 0)) as [Hneg|Hpos].
  - unfold repeat_string. rewrite decide_True by done.
    split; [done|]. split; [by intros (? & [=])|]. intros []. by left.
  - rewrite repeat_string_copies by lia.
    destruct (Hspread (TextEncoder_encode
                (copies (Z.to_nat w) ch ++ newline_char))) as [Hbuf Hlimit].
    split; [exact Hbuf|]. unfold line. rewrite Hlimit. tauto.
Qed.

End builders.

(** C9 fails as stated: [divider("-", -1)] does not return, and neither
    does [raw] with more bytes than the engine takes arguments. *)
Lemma C9_counterexample :
  @invoke args_65536 escpos ascii_host (call_divider "-" (-1))
     (new_ThermalPrinter 384) = Throw RangeError ∧
  @invoke args_65536 escpos ascii_host (call_raw (replicate (Z.to_nat 65537) 0))
     (new_ThermalPrinter 384) = Throw RangeError.
Proof. split; by vm_compute. Qed.

(** C10 fails as stated: the request for the list is answered with status
    500 and a JSON error object, and [getPrinters] returns that object,
    which is neither an array nor empty. *)
Lemma C10_counterexample :
  let run :=
    @getPrinters net_9123_http500 (Some "http://localhost:9123"%string)
      (@start net_9123_http500 ()) in
  trace run.2 =
    [(printers_request (Some "http://localhost:9123"%string),
      Resolved (http500 error_body))] ∧
  failed (Resolved (http500 error_body)) ∧
  run.1 = Normal error_body ∧
  ¬ is_array error_body.
Proof.
  split; [by vm_compute|]. split; [reflexivity|]. split; [by vm_compute|].
  intros [].
Qed.

(** A delivery that succeeds: the endpoint is cached, the driver is there
    and accepts the job. *)
Lemma C8_print_preserves_buffer_witness :
  let this := mkPrinter (Some "http://localhost:9123"%string) 384
                        [Some 0x1b; Some 0x40] in
  let run := @print net_driver_9123 ascii_host (Val (JStr "POS-58")) this
               (@start net_driver_9123 ()) in
  run.1.1 = Normal true ∧ buffer run.1.2 = [].
Proof.
  intros this run. split; [reflexivity|].
  destruct (@C8_print_preserves_buffer net_driver_9123 ascii_host
              (Val (JStr "POS-58")) this (@start net_driver_9123 ()))
    as (_ & _ & Hnormal & _).
  destruct (Hnormal true eq_refl) as [Hbuf _]. exact Hbuf.
Defined.

(** The missing assignment in [findDriver] at work: a fresh client finds
    the driver on port 9123 and then posts the job to ["null/print?..."],
    as does [getPrinters] with its temporary client. *)
Lemma print_posts_to_null :
  let run := @print net_driver_9123 ascii_host (Val (JStr "POS-58"))
               (new_ThermalPrinter 384) (@start net_driver_9123 ()) in
  (trace run.2).*1 =
    [probe 0; print_request None "POS-58" []] ∧
  url (print_request None "POS-58" []) = "null/print?printer=POS-58"%string ∧
  run.1.1 = Throw (FetchError NetworkError).
Proof. by vm_compute. Qed.

(** With nothing listening, a fresh client probes all eight ports. *)
Lemma C2_scan_order_witness :
  let run := @findDriver net_silent (new_ThermalPrinter 384) (@start net_silent ()) in
  run.1.1 = false ∧
  ∃ scan_part,
    trace run.2 = scan_part ∧
    length scan_part = 8%nat ∧
    Forall (λ x, ¬ answers_as_driver x.2) scan_part.
Proof.
  split; [reflexivity|].
  destruct (@C2_scan_order net_silent (new_ThermalPrinter 384)
              (@start net_silent ()))
    as (ping_part & scan_part & Htr & -> & _ & _ & _ & _ & _ & _ & _ & Hfalse).
  exists scan_part. split; [exact Htr|].
  apply Hfalse. reflexivity.
Defined.

(** C1, on the code: with the driver on port 9126 a fresh client finds it
    after four probes and returns [true], but [driverApi] is still [null];
    the second call therefore scans again, issuing the same four probes
    instead of one liveness probe. *)
Theorem C1_found_but_not_cached :
  let first :=
    @findDriver net_9126 (new_ThermalPrinter 384) (@start net_9126 ()) in
  first.1.1 = true ∧
  driverApi first.1.2 = None ∧
  (trace first.2).*1 = [probe 0; probe 1; probe 2; probe 3] ∧
  let second := @findDriver net_9126 first.1.2 first.2 in
  second.1.1 = true ∧
  driverApi second.1.2 = None ∧
  (issued (@findDriver net_9126 first.1.2) first.2).*1 =
    [probe 0; probe 1; probe 2; probe 3].
Proof. by vm_compute. Qed.

End IndexFacts.

(** ** More on the raster encoder *)

Module UtilsMore.
Import Utils Index Usage UtilsFacts.

(** All the binary digits of a packed byte. *)
Lemma byte_of_bits_digit f n :
  0 ≤ n →
  Z.testbit (byte_of_bits f) n = if decide (n < 8) then f (7 - n) else false.
Proof.
  intros Hn. destruct (decide (n < 8)) as [Hlt|Hge].
  - replace n with (7 - (7 - n)) at 1 by lia.
    apply byte_of_bits_testbit. lia.
  - pose proof (byte_of_bits_range f) as [Hlo Hhi].
    destruct (decide (byte_of_bits f = 0)) as [->|Hnz];
      [apply Z.bits_0|].
    apply Z.bits_above_log2; [done|].
    assert (Z.log2 (byte_of_bits f) < 8); [|lia].
    apply Z.log2_lt_pow2; lia.
Qed.

Lemma byte_of_bits_subset f g :
  (∀ b, 0 ≤ b < 8 → f b = true → g b = true) →
  Z.land (byte_of_bits f) (byte_of_bits g) = byte_of_bits f.
Proof.
  intros Hfg. apply Z.bits_inj'. intros n Hn.
  rewrite Z.land_spec, !byte_of_bits_digit by done.
  destruct (decide (n < 8)); [|done].
  destruct (f (7 - n)) eqn:Hf; [|done].
  by rewrite (Hfg (7 - n)) by (done || lia).
Qed.

Lemma ink_monotone img t t' y px :
  t ≤ t' → ink img t y px = true → ink img t' y px = true.
Proof.
  intros Ht. unfold ink. destruct (decide (px < width img)); [|done].
  destruct (js_add _ _) as [sum|]; cbn; [|done].
  intros Hink%bool_decide_eq_true. apply bool_decide_eq_true. lia.
Qed.

Lemma Forall2_join_fmap {A B C : Type} (R : B → C → Prop)
    (f : A → list B) (g : A → list C) (l : list A) :
  (∀ a, Forall2 R (f a) (g a)) →
  Forall2 R (mjoin (f <$> l)) (mjoin (g <$> l)).
Proof.
  intros Hfg. induction l as [|a l IH]; csimpl; [constructor|].
  by apply Forall2_app.
Qed.

(** A higher threshold only adds ink: entry by entry, the output for [t]
    has its one bits among the one bits of the output for [t' >= t]. *)
Theorem threshold_adds_ink img t t' :
  t ≤ t' →
  Forall2 (λ b b', Z.land b b' = b)
          (convertCanvasToEscPos img t) (convertCanvasToEscPos img t').
Proof.
  intros Ht. rewrite !convert_output.
  apply Forall2_app; [|apply Forall2_app].
  - apply Forall_Forall2_diag, Forall_forall. intros. apply Z.land_diag.
  - apply Forall_Forall2_diag, Forall_forall. intros. apply Z.land_diag.
  - unfold raster_data. apply Forall2_join_fmap. intros y.
    unfold raster_row. apply Forall2_fmap, Forall_Forall2_diag, Forall_forall.
    intros x _. unfold raster_byte. apply byte_of_bits_subset.
    intros b _. by apply ink_monotone.
Qed.

Lemma threshold_adds_ink_witness :
  Forall2 (λ b b', Z.land b b' = b)
          (convertCanvasToEscPos edge2x1 382) (convertCanvasToEscPos edge2x1 383).
Proof. apply threshold_adds_ink. lia. Defined.

(** The rows of the upper image keep their bits in the stack. *)
Lemma ink_stack_top top bottom t y px :
  Z.of_nat (length (data top)) = width top * height top * 4 →
  0 ≤ y < height top → 0 ≤ px →
  ink (stack top bottom) t y px = ink top t y px.
Proof.
  intros Hlen Hy Hpx. unfold ink, channel, stack, pixel_at.
  cbn [width data].
  destruct (decide (px < width top)); [|done].
  rewrite !decide_True by nia.
  by rewrite !lookup_app_l by nia.
Qed.

(** The rows of the lower image keep theirs, [height top] rows down. *)
Lemma ink_stack_bottom top bottom t y px :
  width bottom = width top →
  Z.of_nat (length (data top)) = width top * height top * 4 →
  0 ≤ height top → 0 ≤ y → 0 ≤ px →
  ink (stack top bottom) t (height top + y) px = ink bottom t y px.
Proof.
  intros Hw Hlen Hh Hy Hpx. unfold ink, channel, stack, pixel_at.
  cbn [width data]. rewrite Hw.
  destruct (decide (px < width top)); [|done].
  rewrite !decide_True by nia.
  rewrite !lookup_app_r by nia.
  do 3 f_equal; do 2 f_equal; f_equal; nia.
Qed.

Lemma raster_data_stack top bottom t :
  width bottom = width top →
  0 ≤ height top → 0 ≤ height bottom →
  Z.of_nat (length (data top)) = width top * height top * 4 →
  raster_data (stack top bottom) t =
  raster_data top t ++ raster_data bottom t.
Proof.
  intros Hw Hh1 Hh2 Hlen.
  unfold raster_data. cbn [height stack].
  rewrite seqZ_app, fmap_app, join_app by done. f_equal.
  - f_equal. apply list_fmap_ext. intros i y [-> Hy]%lookup_seqZ.
    unfold raster_row, widthBytes. cbn [width stack].
    apply list_fmap_ext. intros j x [-> Hx]%lookup_seqZ.
    apply byte_of_bits_ext. intros b Hb.
    apply ink_stack_top; [done|lia|lia].
  - replace (seqZ (0 + height top) (height bottom))
      with (Z.add (height top) <$> seqZ 0 (height bottom))
      by (rewrite fmap_add_seqZ; f_equal; lia).
    rewrite <- list_fmap_compose. f_equal.
    apply list_fmap_ext. intros i y [-> Hy]%lookup_seqZ. cbn.
    unfold raster_row, widthBytes. cbn [width stack]. rewrite Hw.
    apply list_fmap_ext. intros j x [-> Hx]%lookup_seqZ.
    apply byte_of_bits_ext. intros b Hb.
    apply ink_stack_bottom; [done|done|lia..].
Qed.

(** Cutting an image in two strips: the raster data of a stack is the
    raster data of the upper image followed by that of the lower one, and
    only the height entries of the header differ from the upper image's. *)
Theorem strips_concatenate top bottom t :
  width bottom = width top →
  0 ≤ height top → 0 ≤ height bottom →
  Z.of_nat (length (data top)) = width top * height top * 4 →
  convertCanvasToEscPos (stack top bottom) t =
    take 6 (convertCanvasToEscPos top t) ++
    [Z.rem (height top + height bottom) 256;
     (height top + height bottom) / 256] ++
    drop 8 (convertCanvasToEscPos top t) ++
    drop 8 (convertCanvasToEscPos bottom t).
Proof.
  intros Hw Hh1 Hh2 Hlen. rewrite !convert_output.
  rewrite raster_data_stack by done.
  unfold raster_header. cbn [take drop app]. reflexivity.
Qed.

(** [edge2x1] above itself. *)
Lemma strips_concatenate_witness :
  convertCanvasToEscPos (stack edge2x1 edge2x1) 382 =
    [0x1d; 0x76; 0x30; 0x00; 1; 0] ++ [2; 0] ++ [64] ++ [64].
Proof.
  rewrite (strips_concatenate edge2x1 edge2x1 382);
    [reflexivity|reflexivity|cbn; lia|cbn; lia|reflexivity].
Defined.

Lemma raster_data_elem img t v :
  v ∈ raster_data img t →
  ∃ y x, 0 ≤ y < height img ∧ 0 ≤ x < widthBytes img ∧
         v = raster_byte img t y x.
Proof.
  unfold raster_data, raster_row.
  intros (row & Hv & (y & -> & Hy%elem_of_seqZ)%list_elem_of_fmap)%list_elem_of_join.
  apply list_elem_of_fmap in Hv as (x & -> & Hx%elem_of_seqZ).
  exists y, x. lia.
Qed.

Lemma raster_data_bytes img t :
  Forall (λ b, 0 ≤ b < 256) (raster_data img t).
Proof.
  apply Forall_forall. intros v (y & x & _ & _ & ->)%raster_data_elem.
  apply byte_of_bits_range.
Qed.

Section image.
Context `{Engine}.

(** Within the sizes the two-byte fields can hold, every entry of the
    output is a byte, and there are eight entries and one for each row and
    byte column. If the engine takes that many arguments in one call,
    [image] followed by [getBuffer] hands the command over unchanged;
    otherwise [image] throws a [RangeError]. *)
Theorem image_getBuffer img this :
  0 ≤ width img ≤ 524280 → 0 ≤ height img ≤ 65535 →
  let bytes := convertCanvasToEscPos img default_threshold in
  Forall (λ b, 0 ≤ b < 256) bytes ∧
  Z.of_nat (length bytes) = 8 + height img * widthBytes img ∧
  if decide (8 + height img * widthBytes img ≤ max_arguments)
  then ∃ this', image img this = Normal this' ∧
                getBuffer this' = getBuffer this ++ bytes
  else image img this = Throw RangeError.
Proof.
  intros Hw Hh bytes.
  assert (0 ≤ widthBytes img < 65536) as Hwb.
  { unfold widthBytes. split; [apply Z.div_pos; lia|].
    apply Z.div_lt_upper_bound; lia. }
  assert (Forall (λ b, 0 ≤ b < 256) bytes) as Hbytes.
  { subst bytes. rewrite convert_output.
    repeat apply Forall_cons_2; try done.
    - rewrite Z.rem_mod_nonneg by lia. by apply Z.mod_pos_bound.
    - split; [apply Z.div_pos; lia|apply Z.div_lt_upper_bound; lia].
    - rewrite Z.rem_mod_nonneg by lia. by apply Z.mod_pos_bound.
    - split; [apply Z.div_pos; lia|apply Z.div_lt_upper_bound; lia].
    - apply raster_data_bytes. }
  assert (Z.of_nat (length bytes) = 8 + height img * widthBytes img) as Hlen.
  { subst bytes. rewrite convert_output.
    rewrite !length_app, length_raster_data. cbn [length raster_header]. lia. }
  split; [done|]. split; [done|].
  unfold image, push_spread, numbers. fold bytes.
  rewrite length_fmap, Hlen.
  destruct (decide _); [|done].
  eexists. split; [done|].
  unfold getBuffer, buffer_push. cbn [buffer].
  rewrite fmap_app, <- list_fmap_compose. f_equal.
  rewrite <- (list_fmap_id bytes) at 2.
  apply Forall_fmap_ext_1. eapply Forall_impl; [exact Hbytes|].
  intros b Hb. cbn. by apply Z.mod_small.
Qed.

End image.

(** One white row of eight pixels goes through; an image of 384 by 2800
    pixels, 134408 entries, is more than an engine with 65536 arguments
    takes. *)
Lemma image_getBuffer_witness :
  (∃ this', @image args_65536 white8x1 (new_ThermalPrinter 384) = Normal this' ∧
            getBuffer this' =
              [] ++ convertCanvasToEscPos white8x1 default_threshold) ∧
  @image args_65536 (mkImageData 384 2800 []) (new_ThermalPrinter 384) =
    Throw RangeError.
Proof.
  split.
  - refine (proj2 (proj2 (@image_getBuffer args_65536 white8x1
                            (new_ThermalPrinter 384) _ _))); cbn; lia.
  - refine (proj2 (proj2 (@image_getBuffer args_65536
                            (mkImageData 384 2800 [])
                            (new_ThermalPrinter 384) _ _))); cbn; lia.
Defined.

Lemma join_empty_rows {A : Type} (f : Z → list A) (l : list Z) :
  (∀ y, f y = []) → mjoin (f <$> l) = [].
Proof. intros Hf. induction l; csimpl; [done|]. by rewrite Hf. Qed.

(** An image without rows or without columns: the output is the eight
    header and size entries and nothing else, and no pixel is read. *)
Theorem no_rows_or_columns img t :
  height img ≤ 0 ∨ width img ≤ 0 →
  convertCanvasToEscPos img t =
    raster_header ++
    [Z.rem (xBytes img) 256; xBytes img / 256;
     Z.rem (height img) 256; height img / 256] ∧
  reads (run_convertCanvasToEscPos img t) = [].
Proof.
  intros Hempty.
  assert (height img ≤ 0 ∨ widthBytes img ≤ 0) as Hnone.
  { destruct Hempty as [|Hw]; [by left|right].
    unfold widthBytes.
    assert ((width img + 7) / 8 < 1); [|lia].
    apply Z.div_lt_upper_bound; lia. }
  rewrite convert_output, convert_reads, xBytes_widthBytes.
  unfold raster_data.
  destruct Hnone as [Hh|Hw].
  - rewrite !seqZ_nil by done. by rewrite app_nil_r.
  - rewrite !join_empty_rows; [by rewrite app_nil_r|..].
    + intros y. unfold row_reads. by rewrite seqZ_nil.
    + intros y. unfold raster_row. by rewrite seqZ_nil.
Qed.

Lemma no_rows_or_columns_witness :
  convertCanvasToEscPos (mkImageData 8 0 []) 382 =
    raster_header ++ [1; 0; 0; 0].
Proof.
  apply (no_rows_or_columns (mkImageData 8 0 []) 382). left. cbn. lia.
Defined.

(** The two ends of the threshold scale. With a threshold of 0 or less
    and no negative channel value nothing is inked: every data byte is 0.
    With a threshold above 765, on a conformant buffer of byte-valued
    channels whose width is a multiple of 8, everything is inked: every data
    byte is 255. *)
Theorem threshold_extremes img t :
  (t ≤ 0 → Forall (λ v, 0 ≤ v) (data img) →
     Forall (λ b, b = 0) (drop 8 (convertCanvasToEscPos img t))) ∧
  (765 < t → conformant img → Forall (λ v, v ≤ 255) (data img) →
     width img `mod` 8 = 0 →
     Forall (λ b, b = 255) (drop 8 (convertCanvasToEscPos img t))).
Proof.
  rewrite convert_output. cbn [drop app raster_header]. split.
  - intros Ht Hdata. apply Forall_forall.
    intros v (y & x & _ & _ & ->)%raster_data_elem.
    unfold raster_byte. rewrite (byte_of_bits_ext _ (λ _, false)); [done|].
    intros b _. unfold ink. destruct (decide _); [|done].
    assert (∀ c v, channel img y (x * 8 + b) c = Some v → 0 ≤ v) as Hge.
    { intros c v. unfold channel, pixel_at.
      destruct (decide _); [|done].
      intros Hv. apply (Forall_lookup_1 _ _ _ _ Hdata Hv). }
    destruct (channel img y (x * 8 + b) 0) as [r|] eqn:Hr; [|done].
    destruct (channel img y (x * 8 + b) 1) as [g|] eqn:Hg; [|done].
    destruct (channel img y (x * 8 + b) 2) as [bl|] eqn:Hbl; [|done].
    pose proof (Hge _ _ Hr). pose proof (Hge _ _ Hg). pose proof (Hge _ _ Hbl).
    cbn. apply bool_decide_eq_false_2. lia.
  - intros Ht Hc Hdata Hmod. apply Forall_forall.
    intros v (y & x & Hy & Hx & ->)%raster_data_elem.
    unfold raster_byte. rewrite (byte_of_bits_ext _ (λ _, true)); [done|].
    intros b Hb.
    assert (0 ≤ x * 8 + b < width img) as Hpx.
    { assert (widthBytes img = width img / 8) as Hwb.
      { unfold widthBytes. pose proof (Z.div_mod (width img) 8).
        symmetry. apply (Z.div_unique _ 8 _ 7); lia. }
      rewrite Hwb in Hx. pose proof (Z.div_mod (width img) 8). lia. }
    unfold ink. rewrite decide_True by lia.
    destruct (channel_conformant img y (x * 8 + b) 0) as [r Hr]; [done..|lia|].
    destruct (channel_conformant img y (x * 8 + b) 1) as [g Hg]; [done..|lia|].
    destruct (channel_conformant img y (x * 8 + b) 2) as [bl Hbl]; [done..|lia|].
    rewrite Hr, Hg, Hbl. cbn. apply bool_decide_eq_true_2.
    assert (∀ c v, channel img y (x * 8 + b) c = Some v → v ≤ 255) as Hle.
    { intros c v. unfold channel, pixel_at.
      destruct (decide _); [|done].
      intros Hv. apply (Forall_lookup_1 _ _ _ _ Hdata Hv). }
    pose proof (Hle _ _ Hr). pose proof (Hle _ _ Hg). pose proof (Hle _ _ Hbl).
    lia.
Qed.

Lemma threshold_extremes_witness :
  Forall (λ b, b = 0) (drop 8 (convertCanvasToEscPos black8x1 0)).
Proof.
  apply (proj1 (threshold_extremes black8x1 0)); [lia|].
  by repeat constructor.
Defined.

End UtilsMore.

(** ** More on the command builders *)

Module IndexMore.
Import Utils Index Usage IndexFacts.

Section builders.
Context `{Engine, Constants, Platform}.

Lemma buffer_push_nil this : buffer_push [] this = this.
Proof. destruct this. unfold buffer_push. cbn. by rewrite app_nil_r. Qed.

Lemma buffer_push_push a b this :
  buffer_push b (buffer_push a this) = buffer_push (a ++ b) this.
Proof. unfold buffer_push. cbn. by rewrite app_assoc. Qed.

(** A loop that pushes the same bytes [hi - lo] times. *)
Lemma push_loop bytes lo hi this :
  for_loop lo hi (λ _, buffer_push bytes) this =
  buffer_push (mjoin (replicate (Z.to_nat (hi - lo)) bytes)) this.
Proof.
  unfold for_loop. generalize (Z.to_nat (hi - lo)). intros n.
  revert lo this. induction n as [|n IH]; intros lo this.
  - cbn. by rewrite buffer_push_nil.
  - cbn [for_range replicate]. rewrite IH, buffer_push_push. done.
Qed.

(** What a call appends does not depend on the instance it is made on. *)
Lemma invoke_bytes c :
  (∃ bytes, ∀ this, invoke c this = Normal (buffer_push bytes this)) ∨
  (∀ this, invoke c this = Throw RangeError).
Proof.
  assert (∀ bytes,
    (∃ pushed, ∀ this,
       push_spread (numbers bytes) this = Normal (buffer_push pushed this)) ∨
    (∀ this, push_spread (numbers bytes) this = Throw RangeError))
    as Hspread.
  { intros bytes. unfold push_spread.
    destruct (decide _); [left; by eexists|by right]. }
  destruct c as [|a|b|n|p|t|n|ch w|t d| |bs|img]; cbn [invoke];
    try apply Hspread;
    try (left; eexists; intros this;
         first [reflexivity
               | unfold feed, newline, beep; by rewrite push_loop]).
  unfold divider, repeat_string.
  destruct (decide (w < 0)); [by right|apply Hspread].
Qed.

Lemma chain_bytes calls :
  (∃ bytes, ∀ this, chain calls this = Normal (buffer_push bytes this)) ∨
  (∀ this, chain calls this = Throw RangeError).
Proof.
  induction calls as [|c calls IH].
  - left. exists []. intros this. cbn. by rewrite buffer_push_nil.
  - cbn [chain]. destruct (invoke_bytes c) as [[bytes Hc]|Hc].
    + destruct IH as [[rest Hrest]|Hrest].
      * left. exists (bytes ++ rest). intros this.
        by rewrite Hc, Hrest, buffer_push_push.
      * right. intros this. by rewrite Hc, Hrest.
    + right. intros this. by rewrite Hc.
Qed.

Lemma chain_app calls1 calls2 this :
  chain (calls1 ++ calls2) this =
  match chain calls1 this with
  | Normal this1 => chain calls2 this1
  | Throw e => Throw e
  end.
Proof.
  revert this. induction calls1 as [|c calls1 IH]; intros this; [done|].
  cbn [chain app]. by destruct (invoke c this).
Qed.

(** Chains append in call order, and what they append depends on the
    calls only: if [calls1] takes [this] to [this1] and [calls2] takes
    [this1] to [this2], then the chain of both takes [this] to [this2], the
    new buffer is the old one followed by the bytes of [calls1] and then
    those of [calls2], and [calls2] appends the same bytes to any other
    instance. *)
Theorem chain_in_call_order calls1 calls2 this this1 this2 :
  chain calls1 this = Normal this1 →
  chain calls2 this1 = Normal this2 →
  chain (calls1 ++ calls2) this = Normal this2 ∧
  ∃ bytes1 bytes2,
    this1 = buffer_push bytes1 this ∧
    this2 = buffer_push (bytes1 ++ bytes2) this ∧
    ∀ other, chain calls2 other = Normal (buffer_push bytes2 other).
Proof.
  intros Hc1 Hc2. split; [by rewrite chain_app, Hc1|].
  destruct (chain_bytes calls1) as [[bytes1 Hb1]|Hb1];
    [|by rewrite Hb1 in Hc1].
  destruct (chain_bytes calls2) as [[bytes2 Hb2]|Hb2];
    [|by rewrite Hb2 in Hc2].
  exists bytes1, bytes2.
  rewrite Hb1 in Hc1. injection Hc1 as <-.
  rewrite Hb2 in Hc2. injection Hc2 as <-.
  by rewrite buffer_push_push.
Qed.

(** The counting methods: [feed] and [newline] are the same method and
    append [lines] line feeds, [beep] appends [times] copies of
    [CMD.BEEP(duration)]; a count of zero or less appends nothing. *)
Theorem counted_commands n duration this :
  feed n this = newline n this ∧
  feed n this =
    buffer_push (replicate (Z.to_nat n) (Some CMD_LF)) this ∧
  beep n duration this =
    buffer_push (mjoin (replicate (Z.to_nat n) (numbers (CMD_BEEP duration))))
                this ∧
  (n ≤ 0 → feed n this = this ∧ beep n duration this = this).
Proof.
  assert (∀ k (x : option Z), mjoin (replicate k [x]) = replicate k x) as Hrep.
  { intros k x. induction k; csimpl; by f_equal. }
  split; [done|]. unfold feed, beep. rewrite !push_loop, Z.sub_0_r, Hrep.
  split; [done|]. split; [done|].
  intros Hn. rewrite Z2Nat.nonpos by done. cbn.
  by rewrite buffer_push_nil.
Qed.

(** [align] appends a copy of [CMD.ALIGN_LEFT] whose entry 2 is the
    alignment: the other entries of the constant are kept, and a constant
    shorter than three entries is extended with holes up to entry 2. *)
Theorem align_sets_entry_2 alignment this :
  ∃ cmd,
    align alignment this = buffer_push cmd this ∧
    length cmd = (length CMD_ALIGN_LEFT `max` 3)%nat ∧
    cmd !! 2%nat = Some (Some alignment) ∧
    (∀ i, i ≠ 2%nat → (i < length CMD_ALIGN_LEFT)%nat →
          cmd !! i = Some <$> CMD_ALIGN_LEFT !! i) ∧
    (∀ i, (length CMD_ALIGN_LEFT ≤ i < 2)%nat → cmd !! i = Some None).
Proof.
  exists (array_set (numbers CMD_ALIGN_LEFT) 2 (Some alignment)).
  split; [done|]. unfold array_set, numbers.
  rewrite length_fmap.
  destruct (decide (2 < length CMD_ALIGN_LEFT)%nat) as [Hlong|Hshort].
  - rewrite length_insert, length_fmap.
    split; [lia|]. split.
    + apply list_lookup_insert_eq. by rewrite length_fmap.
    + split; [|lia]. intros i Hi Hlt.
      by rewrite list_lookup_insert_ne, list_lookup_fmap by done.
  - rewrite !length_app, length_replicate, length_fmap. cbn [length].
    split; [lia|]. split.
    + rewrite lookup_app_r by (rewrite length_fmap; lia).
      rewrite lookup_app_r by (rewrite length_fmap, length_replicate; lia).
      rewrite length_fmap, length_replicate.
      by replace (2 - length CMD_ALIGN_LEFT -
                  (2 - length CMD_ALIGN_LEFT))%nat with 0%nat by lia.
    + split.
      * intros i Hi Hlt.
        by rewrite lookup_app_l, list_lookup_fmap by (rewrite length_fmap; lia).
      * intros i Hi. rewrite lookup_app_r by (rewrite length_fmap; lia).
        rewrite lookup_app_l by (rewrite length_fmap, length_replicate; lia).
        apply lookup_replicate_2. rewrite length_fmap. lia.
Qed.

(** What goes in with [raw] comes out of [getBuffer], if the engine takes
    that many arguments in one call: entry by entry modulo 256 after the
    bytes already there, hence unchanged when the entries are bytes; after
    [clear], the raw bytes are all there is. With more entries than that
    [raw] throws a [RangeError], whatever the buffer holds. *)
Theorem raw_round_trip bytes this :
  if decide (Z.of_nat (length bytes) ≤ max_arguments) then
    ∃ this' fresh,
      raw bytes this = Normal this' ∧
      raw bytes (clear this) = Normal fresh ∧
      getBuffer this' = getBuffer this ++ ((λ b, b `mod` 256) <$> bytes) ∧
      (Forall (λ b, 0 ≤ b < 256) bytes →
         getBuffer this' = getBuffer this ++ bytes ∧
         getBuffer fresh = bytes)
  else
    raw bytes this = Throw RangeError ∧
    raw bytes (clear this) = Throw RangeError.
Proof.
  unfold raw, push_spread, numbers. rewrite length_fmap.
  destruct (decide _); [|done].
  assert (∀ p, getBuffer (buffer_push (Some <$> bytes) p) =
               getBuffer p ++ ((λ b, b `mod` 256) <$> bytes)) as Hraw.
  { intros p. unfold getBuffer, buffer_push. cbn [buffer].
    by rewrite fmap_app, <- list_fmap_compose. }
  eexists _, _. split; [done|]. split; [done|].
  split; [apply Hraw|]. intros Hbytes.
  assert ((λ b, b `mod` 256) <$> bytes = bytes) as Hid.
  { rewrite <- (list_fmap_id bytes) at 2.
    apply Forall_fmap_ext_1. eapply Forall_impl; [exact Hbytes|].
    intros b Hb. by apply Z.mod_small. }
  by rewrite !Hraw, Hid.
Qed.

End builders.

Section discovery.
Context `{Network}.

Lemma probe_is_health_get port : is_health_get (probe_of port).
Proof. split; [done|]. by exists (localhost port). Qed.

(** Every request of [findDriver] asks for a health path. *)
Lemma findDriver_gets this e :
  ∃ tr, trace (findDriver this e).2 = trace e ++ tr ∧
        Forall (λ x, is_health_get x.1) tr ∧
        (length tr ≤ 9)%nat ∧
        (truthy (of_nullable (driverApi this)) = false → length tr ≤ 8)%nat.
Proof.
  destruct (findDriver_run this e) as (ping_part & scan_part & Htr & Hrun).
  exists (ping_part ++ scan_part). split; [done|].
  assert (∀ found, scanned 8 9123 scan_part found →
            Forall (λ x, is_health_get x.1) scan_part ∧
            (length scan_part ≤ 8)%nat) as Hscan.
  { intros found Hscan. split; [|by apply (scanned_length _ _ _ _ Hscan)].
    apply (Forall_fmap fst is_health_get).
    rewrite (scanned_requests _ _ _ _ Hscan).
    apply Forall_fmap, Forall_forall. intros port _.
    apply probe_is_health_get. }
  destruct Hrun as [[-> Hs]|(r & -> & _ & Hcached & Hr)].
  - destruct (Hscan _ Hs) as [Hall Hlen]. cbn. split; [done|]. lia.
  - assert (is_health_get (liveness_probe this)) as Hping.
    { split; [done|]. by eexists. }
    rewrite Hcached.
    destruct (decide (failed r)).
    + destruct (Hscan _ Hr) as [Hall Hlen].
      split; [constructor; [exact Hping|exact Hall]|].
      cbn. split; [lia|done].
    + destruct Hr as [-> _]. rewrite app_nil_r.
      split; [constructor; [exact Hping|constructor]|].
      cbn. split; [lia|done].
Qed.

(** A call of [findDriver] issues at most nine requests, at most eight
    when no endpoint is cached, each a GET of a health path; it never
    touches the command buffer or the printer width. *)
Theorem findDriver_only_probes this e :
  ∃ tr,
    trace (findDriver this e).2 = trace e ++ tr ∧
    Forall (λ x, is_health_get x.1) tr ∧
    (length tr ≤ 9)%nat ∧
    (truthy (of_nullable (driverApi this)) = false → length tr ≤ 8)%nat ∧
    buffer (findDriver this e).1.2 = buffer this ∧
    printerWidth (findDriver this e).1.2 = printerWidth this.
Proof.
  destruct (findDriver_gets this e) as (tr & Htr & Hall & Hlen & Hfresh).
  destruct (findDriver_keeps_buffer this e) as [Hbuf Hwidth].
  by exists tr.
Qed.

(** The fast path: when the cached endpoint answers its liveness probe
    with a success status, whatever the body, [findDriver] returns [true]
    after that single request and leaves the instance as it is. *)
Theorem findDriver_fast_path this e res w :
  truthy (of_nullable (driverApi this)) = true →
  fetch (liveness_probe this) (world e) = (Resolved res, w) →
  ok res = true →
  findDriver this e =
    ((true, this),
     mkEnv _ w (trace e ++ [(liveness_probe this, Resolved res)])).
Proof.
  intros Hcached Hfetch Hok.
  by rewrite findDriver_unfold, Hcached, Hfetch, Hok.
Qed.

End discovery.

Section printing.
Context `{Network, Platform}.

(** [print], with the monad unfolded. *)
Lemma print_unfold name this e :
  print name this e =
  let '((found, this1), e1) := findDriver this e in
  if negb found then ((Throw (Error msg_no_driver), this1), e1)
  else if negb (truthy name) then
    let '(printers, e2) := getPrinters (driverApi this1) e1 in
    match printers with
    | Throw err => ((Throw err, this1), e2)
    | Normal printers =>
        match first_printer_name printers with
        | Throw err => ((Throw err, this1), e2)
        | Normal printerName => deliver printerName this1 e2
        end
    end
  else deliver name this1 e1.
Proof.
  unfold print, bind, ret.
  destruct (findDriver this e) as [[found this1] e1].
  destruct found; cbn [negb]; [|done].
  destruct (truthy name); cbn [negb]; [done|].
  destruct (getPrinters _ e1) as [[printers|err] e2]; [|done].
  by destruct (first_printer_name printers).
Qed.

Lemma deliver_unfold name this e :
  deliver name this e =
  match encodeURIComponent name with
  | Throw err => ((Throw err, this), e)
  | Normal encodedName =>
      let rq := print_request (driverApi this) encodedName (getBuffer this) in
      let '(r, w) := fetch rq (world e) in
      let e' := mkEnv _ w (trace e ++ [(rq, r)]) in
      match r with
      | Rejected why => ((Throw (FetchError why), this), e')
      | Resolved res =>
          if ok res then ((Normal true, clear this), e')
          else ((Throw (Error msg_driver_error), this), e')
      end
  end.
Proof.
  unfold deliver, bind, ret, await_fetch.
  destruct (encodeURIComponent name) as [encodedName|err]; [|done].
  cbv zeta.
  destruct (fetch _ (world e)) as [[why|res] w]; [done|].
  by destruct (ok res).
Qed.

(** What [deliver] issues: nothing, or the one POST of the buffer to the
    print path of the endpoint, with the encoded printer name. *)
Lemma deliver_posts name this e :
  trace (deliver name this e).2 = trace e ∨
  ∃ encodedName fr,
    encodeURIComponent name = Normal encodedName ∧
    trace (deliver name this e).2 =
      trace e ++
      [(print_request (driverApi this) encodedName (getBuffer this), fr)].
Proof.
  rewrite deliver_unfold.
  destruct (encodeURIComponent name) as [encodedName|err]; [|by left].
  right. exists encodedName. cbv zeta.
  destruct (fetch _ (world e)) as [[why|res] w]; [by eexists|].
  destruct (ok res); by eexists.
Qed.

Lemma deliver_keeps name this e :
  printerWidth (deliver name this e).1.2 = printerWidth this ∧
  driverApi (deliver name this e).1.2 = driverApi this.
Proof.
  rewrite deliver_unfold.
  destruct (encodeURIComponent name) as [encodedName|err]; [|done].
  cbv zeta.
  destruct (fetch _ (world e)) as [[why|res] w]; [done|].
  by destruct (ok res).
Qed.

Lemma getPrinters_gets overrideUrl e :
  ∃ tr, trace (getPrinters overrideUrl e).2 = trace e ++ tr ∧
        Forall (λ x, method x.1 = GET) tr.
Proof.
  unfold getPrinters.
  destruct (negb (truthy (of_nullable overrideUrl))).
  - unfold bind.
    destruct (findDriver_gets (new_ThermalPrinter 384) e)
      as (t1 & Ht1 & Hall & _).
    assert (Forall (λ x : Request * FetchResult, method x.1 = GET) t1) as Hget.
    { eapply Forall_impl; [exact Hall|]. by intros x [Hm _]. }
    destruct (findDriver _ e) as [[found temp] e1]. cbn [snd] in Ht1.
    destruct found.
    + destruct (fetch_printers_run (driverApi temp) e1) as (fr & -> & _).
      cbn. rewrite Ht1, <- app_assoc. eexists. split; [done|].
      apply Forall_app. split; [done|]. by repeat constructor.
    + cbn. by exists t1.
  - destruct (fetch_printers_run overrideUrl e) as (fr & -> & _).
    cbn. eexists. split; [done|]. by repeat constructor.
Qed.

(** The requests of one call of [print]: GETs (discovery, and the printer
    list if no name was given), then at most one POST, which carries the
    buffer as it was at the call, converted to bytes, to the print path of
    [driverApi]. The printer width never changes. *)
Theorem print_requests name this e :
  ∃ gets posts,
    trace (print name this e).2 = trace e ++ gets ++ posts ∧
    Forall (λ x, method x.1 = GET) gets ∧
    (posts = [] ∨
     ∃ encodedName fr,
       posts = [(print_request (driverApi (findDriver this e).1.2)
                   encodedName (getBuffer this), fr)]) ∧
    printerWidth (print name this e).1.2 = printerWidth this.
Proof.
  rewrite print_unfold.
  destruct (findDriver_gets this e) as (t1 & Ht1 & Hall & _).
  assert (Forall (λ x : Request * FetchResult, method x.1 = GET) t1) as Hget1.
  { eapply Forall_impl; [exact Hall|]. by intros x [Hm _]. }
  destruct (findDriver_keeps_buffer this e) as [Hbuf Hwidth].
  destruct (findDriver this e) as [[found this1] e1].
  cbn [fst snd] in *.
  assert (∀ n e2 t2, trace e2 = trace e ++ t2 →
            Forall (λ x : Request * FetchResult, method x.1 = GET) t2 →
    ∃ gets posts,
      trace (deliver n this1 e2).2 = trace e ++ gets ++ posts ∧
      Forall (λ x : Request * FetchResult, method x.1 = GET) gets ∧
      (posts = [] ∨
       ∃ encodedName fr,
         posts = [(print_request (driverApi this1) encodedName
                     (getBuffer this), fr)]) ∧
      printerWidth (deliver n this1 e2).1.2 = printerWidth this) as Hdeliver.
  { intros n e2 t2 Ht2 Hget2. exists t2.
    destruct (deliver_keeps n this1 e2) as [-> _].
    destruct (deliver_posts n this1 e2) as [->|(enc & fr & _ & ->)].
    - exists []. rewrite app_nil_r. split; [done|]. split; [done|]. by split; [left|].
    - eexists. rewrite Ht2, <- app_assoc. split; [done|]. split; [done|].
      split; [|done]. right. exists enc, fr.
      unfold getBuffer. by rewrite Hbuf. }
  destruct found; cbn [negb].
  - destruct (truthy name); cbn [negb]; [by apply (Hdeliver _ _ t1)|].
    destruct (getPrinters_gets (driverApi this1) e1) as (t2 & Ht2 & Hget2).
    destruct (getPrinters _ e1) as [printers e2]. cbn [snd] in Ht2.
    assert (trace e2 = trace e ++ (t1 ++ t2)) as Ht12
      by (by rewrite Ht2, Ht1, <- app_assoc).
    assert (Forall (λ x : Request * FetchResult, method x.1 = GET) (t1 ++ t2))
      by (by apply Forall_app).
    destruct printers as [printers|err].
    + destruct (first_printer_name printers) as [n|err];
        [by apply (Hdeliver _ _ (t1 ++ t2))|].
      exists (t1 ++ t2), []. rewrite app_nil_r. cbn. by split_and!; [..|left|].
    + exists (t1 ++ t2), []. rewrite app_nil_r. cbn. by split_and!; [..|left|].
  - exists t1, []. rewrite app_nil_r. cbn. by split_and!; [..|left|].
Qed.

(** Printing to a named printer never asks for the printer list: after
    discovery [print] either stops (no driver, or a name that cannot be
    encoded) or issues exactly one more request, the POST to
    [`${driverApi}/print?printer=${encodedName}`]. *)
Theorem print_named name this e :
  truthy name = true →
  let d := findDriver this e in
  let run := print name this e in
  (d.1.1 = false → run = ((Throw (Error msg_no_driver), d.1.2), d.2)) ∧
  (d.1.1 = true →
     match encodeURIComponent name with
     | Throw err => run = ((Throw err, d.1.2), d.2)
     | Normal encodedName =>
         ∃ fr, trace run.2 =
                 trace d.2 ++
                 [(print_request (driverApi d.1.2) encodedName
                     (getBuffer this), fr)]
     end).
Proof.
  intros Hname d run. subst d run. rewrite print_unfold, Hname.
  destruct (findDriver_keeps_buffer this e) as [Hbuf _].
  destruct (findDriver this e) as [[found this1] e1]. cbn [fst snd negb] in *.
  split; intros ->; cbn [negb]; [done|].
  rewrite deliver_unfold.
  destruct (encodeURIComponent name) as [encodedName|err]; [|done].
  cbv zeta. unfold getBuffer. rewrite Hbuf.
  destruct (fetch _ (world e1)) as [[why|res] w]; [by eexists|].
  destruct (ok res); by eexists.
Qed.

(** Printing without a name when the driver lists no printer: [print]
    throws ["No printer found in Windows settings."] right after the
    request for the list, with the instance as discovery left it. *)
Theorem print_without_printers name this e :
  truthy name = false →
  let d := findDriver this e in
  let list := getPrinters (driverApi d.1.2) d.2 in
  d.1.1 = true →
  list.1 = Normal (JArr []) →
  print name this e = ((Throw (Error msg_no_printer), d.1.2), list.2).
Proof.
  intros Hname d list. subst d list. rewrite print_unfold, Hname.
  destruct (findDriver this e) as [[found this1] e1]. cbn [fst snd].
  intros ->. cbn [negb].
  destruct (getPrinters _ e1) as [printers e2]. cbn [fst snd].
  by intros ->.
Qed.

(** Printing without a name prints to the first printer of the list: when
    the list is an array whose first entry is an object, [print] goes on
    exactly as if that entry's [name] had been given, whatever the other
    entries are. *)
Theorem print_default_printer name this e fields others :
  truthy name = false →
  let d := findDriver this e in
  let list := getPrinters (driverApi d.1.2) d.2 in
  d.1.1 = true →
  list.1 = Normal (JArr (JObj fields :: others)) →
  print name this e = deliver (assoc "name" fields) d.1.2 list.2.
Proof.
  intros Hname d list. subst d list. rewrite print_unfold, Hname.
  destruct (findDriver this e) as [[found this1] e1]. cbn [fst snd].
  intros ->. cbn [negb].
  destruct (getPrinters _ e1) as [printers e2]. cbn [fst snd].
  intros ->. unfold first_printer_name, get, gt0. cbn [length].
  by rewrite bool_decide_true by lia.
Qed.

End printing.

Lemma print_named_witness :
  ∃ fr,
    trace (@print net_driver_9123 ascii_host (Val (JStr "POS-58")) cached_9123
             (@start net_driver_9123 ())).2 =
    trace (@findDriver net_driver_9123 cached_9123
             (@start net_driver_9123 ())).2 ++
    [(print_request (Some "http://localhost:9123"%string) "POS-58" [27; 64],
      fr)].
Proof.
  exact (proj2 (@print_named net_driver_9123 ascii_host
                  (Val (JStr "POS-58")) cached_9123
                  (@start net_driver_9123 ()) eq_refl) eq_refl).
Defined.

Lemma print_without_printers_witness :
  (@print net_no_printers ascii_host Undefined cached_9123
     (@start net_no_printers ())).1.1 = Throw (Error msg_no_printer).
Proof.
  by rewrite (@print_without_printers net_no_printers ascii_host Undefined
                cached_9123 (@start net_no_printers ()) eq_refl eq_refl eq_refl).
Defined.

Lemma print_default_printer_witness :
  (@print net_driver_9123 ascii_host Undefined cached_9123
     (@start net_driver_9123 ())).1 = (Normal true, clear cached_9123).
Proof.
  by rewrite (@print_default_printer net_driver_9123 ascii_host Undefined
                cached_9123 (@start net_driver_9123 ())
                [("name"%string, JStr "POS-58");
                 ("status_text"%string, JStr "Ready")] []
                eq_refl eq_refl eq_refl).
Defined.

Lemma findDriver_fast_path_witness :
  @findDriver net_driver_9123 cached_9123 (@start net_driver_9123 ()) =
    ((true, cached_9123),
     @mkEnv net_driver_9123 ()
       [(liveness_probe cached_9123, Resolved driver_health)]).
Proof.
  apply (@findDriver_fast_path net_driver_9123 cached_9123
           (@start net_driver_9123 ()) driver_health ()); reflexivity.
Defined.

(** [init], [align(1)], a line of text and a cut, then two feeds. *)
Lemma chain_in_call_order_witness :
  @chain args_65536 escpos ascii_host
    ([call_init; call_align 1; call_line "OK"; call_cut false] ++
     [call_feed 2])
    (new_ThermalPrinter 384) =
  Normal (mkPrinter None 384
    (Some <$> [0x1b; 0x40; 0x1b; 0x61; 1; 79; 75; 10; 0x1d; 0x56; 0;
               10; 10])).
Proof.
  refine (proj1 (@chain_in_call_order args_65536 escpos ascii_host _ _ _
    (mkPrinter None 384
       (Some <$> [0x1b; 0x40; 0x1b; 0x61; 1; 79; 75; 10; 0x1d; 0x56; 0]))
    _ _ _)); reflexivity.
Defined.

(** Three entries, one of them above 255, after two bytes; 65537 entries
    on an engine that takes 65536 arguments. *)
Lemma raw_round_trip_witness :
  (∃ this',
     @raw args_65536 [0x1b; 0x40; 300] (buffer_push [Some 1; Some 2]
                                          (new_ThermalPrinter 384))
       = Normal this' ∧
     getBuffer this' = [1; 2; 0x1b; 0x40; 44]) ∧
  @raw args_65536 (replicate (Z.to_nat 65537) 0) (new_ThermalPrinter 384)
    = Throw RangeError.
Proof.
  split.
  - destruct (@raw_round_trip args_65536 [0x1b; 0x40; 300]
                (buffer_push [Some 1; Some 2] (new_ThermalPrinter 384)))
      as (this' & fresh & Hraw & _ & Hbuffer & _).
    exists this'. split; [exact Hraw|exact Hbuffer].
  - pose proof (@raw_round_trip args_65536 (replicate (Z.to_nat 65537) 0)
                  (new_ThermalPrinter 384)) as Hthrows.
    rewrite length_replicate in Hthrows.
    exact (proj1 Hthrows).
Defined.

End IndexMore.

(** ** The revision with the cache and the identifier filter *)

Module Index2Facts.
Import Utils Index Usage IndexFacts.

Lemma valid_match_ok r :
  valid_match r = true → ∃ res, r = Resolved res ∧ ok res = true.
Proof.
  destruct r as [why|res]; [done|]. cbn.
  destruct (ok res) eqn:Hok; [|done]. intros _. by exists res.
Qed.

(** The request that ends a scan on a match is the probe of the port
    reached. *)
Lemma scanned_last n port tr rq r found :
  scanned n port (tr ++ [(rq, r)]) found →
  rq = probe_of (port + Z.of_nat (length tr)).
Proof.
  intros Hscan%scanned_requests.
  assert ((tr ++ [(rq, r)]).*1 !! length tr = Some rq) as Hrq.
  { rewrite fmap_app, lookup_app_r by (by rewrite length_fmap).
    by rewrite length_fmap, Nat.sub_diag. }
  rewrite Hscan, list_lookup_fmap, lookup_seqZ_lt in Hrq
    by (rewrite length_app; cbn; lia).
  by injection Hrq.
Qed.

Lemma localhost_truthy port :
  truthy (of_nullable (Some (localhost port))) = true.
Proof. done. Qed.

Section discovery.
Context `{Network}.

Lemma scan_run n port this e :
  ∃ tr,
    trace (Index2.scan n port this e).2 = trace e ++ tr ∧
    scanned n port tr (Index2.scan n port this e).1.1 ∧
    (Index2.scan n port this e).1.2 =
      if (Index2.scan n port this e).1.1
      then mkPrinter (Some (localhost (port + Z.of_nat (length tr) - 1)))
                     (printerWidth this) (buffer this)
      else this.
Proof.
  revert port e. induction n as [|n IH]; intros port e.
  - exists []. cbn. rewrite app_nil_r. split; [done|]. split; [constructor|done].
  - cbn [Index2.scan]. unfold bind, await_fetch.
    destruct (fetch _ (world e)) as [r w] eqn:Hfetch.
    destruct (valid_match r) eqn:Hr.
    + exists [(probe_of port, r)]. cbn [fst snd trace].
      split; [done|]. split; [by constructor|].
      by replace (port + Z.of_nat (length [(probe_of port, r)]) - 1)
        with port by (cbn [length]; lia).
    + destruct (IH (port + 1)
        (mkEnv _ w (trace e ++ [(probe_of port, r)])))
        as (tr & Htr & Hscan & Hthis).
      exists ((probe_of port, r) :: tr). split; [|split].
      * unfold probe_of in *. rewrite Htr. cbn. by rewrite <- app_assoc.
      * by constructor.
      * unfold probe_of in *. rewrite Hthis.
        destruct (Index2.scan n _ _ _).1.1; [|done].
        by replace (port + Z.of_nat (length ((health_check (localhost port)
                      (Some 100), r) :: tr)) - 1)
          with (port + 1 + Z.of_nat (length tr) - 1) by (cbn [length]; lia).
Qed.

Lemma findDriver2_unfold this e :
  Index2.findDriver this e =
  if truthy (of_nullable (driverApi this)) then
    let '(r, w) := fetch (liveness_probe this) (world e) in
    let e1 := mkEnv _ w (trace e ++ [(liveness_probe this, r)]) in
    match r with
    | Resolved res =>
        if ok res then ((true, this), e1) else Index2.scan 8 9123 this e1
    | Rejected _ =>
        Index2.scan 8 9123
          (mkPrinter None (printerWidth this) (buffer this)) e1
    end
  else Index2.scan 8 9123 this e.
Proof.
  unfold Index2.findDriver, ping, bind, ret, await_fetch.
  change (Z.to_nat (portRangeHigh + 1 - portRangeLow)) with 8%nat.
  change portRangeLow with 9123.
  destruct (truthy _); [|done].
  destruct (fetch _ (world e)) as [[why|res] w]; [done|].
  by destruct (ok res).
Qed.

(** A call that returns [true]: either the liveness probe succeeded and
    nothing changed, or the scan ended on its first valid match, at some
    port, which is now cached. A call that returns [false] has probed the
    eight ports in vain and caches nothing. *)
Lemma findDriver2_run this e :
  ∃ tr,
    trace (Index2.findDriver this e).2 = trace e ++ tr ∧
    buffer (Index2.findDriver this e).1.2 = buffer this ∧
    printerWidth (Index2.findDriver this e).1.2 = printerWidth this ∧
    if (Index2.findDriver this e).1.1 then
      (∃ res, tr = [(liveness_probe this, Resolved res)] ∧ ok res = true ∧
              truthy (of_nullable (driverApi this)) = true ∧
              (Index2.findDriver this e).1.2 = this)
      ∨ (∃ before port res,
           tr = before ++ [(probe_of port, Resolved res)] ∧
           Forall (λ x, valid_match x.2 = false) before ∧
           9123 ≤ port ≤ 9130 ∧
           valid_match (Resolved res) = true ∧ ok res = true ∧
           driverApi (Index2.findDriver this e).1.2 = Some (localhost port))
    else
      (driverApi (Index2.findDriver this e).1.2 = driverApi this ∨
       driverApi (Index2.findDriver this e).1.2 = None) ∧
      Forall (λ x, valid_match x.2 = false) tr ∧
      ∃ before scan_part,
        tr = before ++ scan_part ∧
        scan_part.*1 = probe_of <$> seqZ 9123 8.
Proof.
  assert (∀ this0 e0,
    buffer this0 = buffer this → printerWidth this0 = printerWidth this →
    ∃ tr,
      trace (Index2.scan 8 9123 this0 e0).2 = trace e0 ++ tr ∧
      buffer (Index2.scan 8 9123 this0 e0).1.2 = buffer this ∧
      printerWidth (Index2.scan 8 9123 this0 e0).1.2 = printerWidth this ∧
      if (Index2.scan 8 9123 this0 e0).1.1 then
        ∃ before port res,
          tr = before ++ [(probe_of port, Resolved res)] ∧
          Forall (λ x, valid_match x.2 = false) before ∧
          9123 ≤ port ≤ 9130 ∧
          valid_match (Resolved res) = true ∧ ok res = true ∧
          driverApi (Index2.scan 8 9123 this0 e0).1.2 = Some (localhost port)
      else (Index2.scan 8 9123 this0 e0).1.2 = this0 ∧
           Forall (λ x, valid_match x.2 = false) tr ∧
           tr.*1 = probe_of <$> seqZ 9123 8) as Hscan.
  { intros this0 e0 Hbuf Hwidth.
    destruct (scan_run 8 9123 this0 e0) as (tr & Htr & Hscan & Hthis).
    exists tr. split; [done|]. rewrite Hthis.
    destruct (Index2.scan 8 9123 this0 e0).1.1 eqn:Hfound.
    - split; [done|]. split; [done|].
      destruct (scanned_true _ _ _ _ Hscan eq_refl)
        as (before & rq & r & -> & Hr & Hmisses).
      destruct (valid_match_ok r Hr) as (res & -> & Hok).
      pose proof (scanned_last _ _ _ _ _ _ Hscan) as ->.
      pose proof (scanned_length _ _ _ _ Hscan) as Hlen.
      rewrite length_app in Hlen. cbn in Hlen.
      exists before, (9123 + Z.of_nat (length before)), res.
      split; [done|]. split; [done|]. split; [lia|].
      split; [done|]. split; [done|].
      cbn [driverApi]. rewrite length_app. cbn [length].
      do 2 f_equal. lia.
    - split; [done|]. split; [done|]. split; [done|].
      destruct (scanned_false _ _ _ _ Hscan eq_refl) as [Hlen Hmisses].
      split; [done|]. rewrite (scanned_requests _ _ _ _ Hscan), Hlen. done. }
  rewrite findDriver2_unfold.
  destruct (truthy _) eqn:Hcached.
  - destruct (fetch _ (world e)) as [[why|res] w]; cbv zeta.
    + destruct (Hscan (mkPrinter None (printerWidth this) (buffer this))
                  (mkEnv _ w (trace e ++
                     [(liveness_probe this, Rejected why)])) eq_refl eq_refl)
        as (tr & Htr & Hbuf & Hwidth & Hres).
      exists ((liveness_probe this, Rejected why) :: tr).
      split; [cbn [trace] in Htr; by rewrite Htr, <- app_assoc|].
      split; [done|]. split; [done|].
      destruct (Index2.scan 8 9123 _ _).1.1.
      * right.
        destruct Hres as (before & port & res & -> & Hmisses & Hrest).
        exists ((liveness_probe this, Rejected why) :: before), port, res.
        split; [done|]. split; [by constructor|done].
      * destruct Hres as (-> & Hmisses & Hprobes).
        split; [by right|]. split; [by constructor|].
        by exists [(liveness_probe this, Rejected why)], tr.
    + destruct (ok res) eqn:Hok.
      * exists [(liveness_probe this, Resolved res)]. cbn.
        split; [done|]. split; [done|]. split; [done|]. left. by exists res.
      * destruct (Hscan this
                    (mkEnv _ w (trace e ++
                       [(liveness_probe this, Resolved res)])) eq_refl eq_refl)
          as (tr & Htr & Hbuf & Hwidth & Hres).
        assert (valid_match (Resolved res) = false) as Hmiss
          by (cbn; by rewrite Hok).
        exists ((liveness_probe this, Resolved res) :: tr).
        split; [cbn [trace] in Htr; by rewrite Htr, <- app_assoc|].
        split; [done|]. split; [done|].
        destruct (Index2.scan 8 9123 _ _).1.1.
        -- right.
           destruct Hres as (before & port & res' & -> & Hmisses & Hrest).
           exists ((liveness_probe this, Resolved res) :: before), port, res'.
           split; [done|]. split; [by constructor|done].
        -- destruct Hres as (-> & Hmisses & Hprobes).
           split; [by left|]. split; [by constructor|].
           by exists [(liveness_probe this, Resolved res)], tr.
  - destruct (Hscan this e eq_refl eq_refl)
      as (tr & Htr & Hbuf & Hwidth & Hres).
    exists tr. split; [done|]. split; [done|]. split; [done|].
    destruct (Index2.scan 8 9123 _ _).1.1; [by right|].
    destruct Hres as (-> & Hmisses & Hprobes).
    split; [by left|]. split; [done|]. by exists [], tr.
Qed.

(** In this revision a call of [findDriver] that returns [true] leaves in
    [driverApi] the endpoint whose health path has just answered with a
    success status, as the last request of the call: either the endpoint
    cached before, or [http://localhost:<port>] for the port in 9123..9130
    at which the scan found its first valid match (no earlier request of
    the call was one). *)
Theorem findDriver_caches this e :
  (Index2.findDriver this e).1.1 = true →
  ∃ before rq res,
    trace (Index2.findDriver this e).2 =
      trace e ++ before ++ [(rq, Resolved res)] ∧
    ok res = true ∧
    url rq =
      (template (driverApi (Index2.findDriver this e).1.2) ++ "/health")%string ∧
    truthy (of_nullable (driverApi (Index2.findDriver this e).1.2)) = true ∧
    ((Index2.findDriver this e).1.2 = this ∧ before = []
     ∨ ∃ port, 9123 ≤ port ≤ 9130 ∧ rq = probe_of port ∧
               valid_match (Resolved res) = true ∧
               Forall (λ x, valid_match x.2 = false) before ∧
               driverApi (Index2.findDriver this e).1.2 =
                 Some (localhost port)).
Proof.
  intros Hfound.
  destruct (findDriver2_run this e) as (tr & Htr & _ & _ & Hres).
  rewrite Hfound in Hres.
  destruct Hres as [(res & -> & Hok & Hcached & Hthis)
                   |(before & port & res & -> & Hmisses & Hport & Hvalid &
                     Hok & Hapi)].
  - exists [], (liveness_probe this), res. rewrite Hthis.
    split; [done|]. split; [done|]. split; [done|]. split; [done|]. by left.
  - exists before, (probe_of port), res. rewrite Hapi.
    split; [done|]. split; [done|]. split; [done|]. split; [done|].
    right. by exists port.
Qed.

(** In this revision a call of [findDriver] that returns [false] has ended
    with the probes of the eight ports 9123..9130, no request of the call
    was a valid match, and no endpoint is stored: [driverApi] is as before,
    or [null]. *)
Theorem findDriver_not_found this e :
  (Index2.findDriver this e).1.1 = false →
  (driverApi (Index2.findDriver this e).1.2 = driverApi this ∨
   driverApi (Index2.findDriver this e).1.2 = None) ∧
  ∃ before scan_part,
    trace (Index2.findDriver this e).2 = trace e ++ before ++ scan_part ∧
    scan_part.*1 = probe_of <$> seqZ 9123 8 ∧
    Forall (λ x, valid_match x.2 = false) (before ++ scan_part).
Proof.
  intros Hfound.
  destruct (findDriver2_run this e) as (tr & Htr & _ & _ & Hres).
  rewrite Hfound in Hres.
  destruct Hres as (Hapi & Hmisses & before & scan_part & -> & Hprobes).
  split; [done|]. by exists before, scan_part.
Qed.

(** The cache is used: after a call that returned [true], a further call
    whose liveness probe of the cached endpoint succeeds issues that one
    request and nothing else, returns [true] and keeps the cache. *)
Theorem second_call_probes_once this e e2 res w :
  (Index2.findDriver this e).1.1 = true →
  let cached := (Index2.findDriver this e).1.2 in
  fetch (liveness_probe cached) (world e2) = (Resolved res, w) →
  ok res = true →
  Index2.findDriver cached e2 =
    ((true, cached),
     mkEnv _ w (trace e2 ++ [(liveness_probe cached, Resolved res)])).
Proof.
  intros Hfound cached Hfetch Hok.
  assert (truthy (of_nullable (driverApi cached)) = true) as Hcached.
  { subst cached.
    destruct (findDriver2_run this e) as (tr & _ & _ & _ & Hres).
    rewrite Hfound in Hres.
    destruct Hres as [(? & _ & _ & Hc & ->)
                     |(? & ? & ? & _ & _ & _ & _ & _ & ->)];
      done. }
  by rewrite findDriver2_unfold, Hcached, Hfetch, Hok.
Qed.

End discovery.

(** A fresh client finds the driver on port 9125 and caches it. *)
Lemma findDriver_caches_witness :
  truthy (of_nullable
    (driverApi (@Index2.findDriver Index2.net_driver_9125
                  (new_ThermalPrinter 384)
                  (@start Index2.net_driver_9125 ())).1.2)) = true.
Proof.
  destruct (@findDriver_caches Index2.net_driver_9125 (new_ThermalPrinter 384)
              (@start Index2.net_driver_9125 ()) eq_refl)
    as (before & rq & res & _ & _ & _ & Hcached & _).
  exact Hcached.
Defined.

(** With nothing listening the client keeps no endpoint. *)
Lemma findDriver_not_found_witness :
  driverApi (@Index2.findDriver net_silent cached_9123
               (@start net_silent ())).1.2 =
    Some "http://localhost:9123"%string ∨
  driverApi (@Index2.findDriver net_silent cached_9123
               (@start net_silent ())).1.2 = None.
Proof.
  exact (proj1 (@findDriver_not_found net_silent cached_9123
                  (@start net_silent ()) eq_refl)).
Defined.

(** Its second call is the liveness probe alone. *)
Lemma second_call_probes_once_witness :
  let first := @Index2.findDriver Index2.net_driver_9125 (new_ThermalPrinter 384)
                 (@start Index2.net_driver_9125 ()) in
  @Index2.findDriver Index2.net_driver_9125 first.1.2 first.2 =
    ((true, first.1.2),
     @mkEnv Index2.net_driver_9125 ()
       (trace first.2 ++ [(liveness_probe first.1.2, Resolved driver_health)])).
Proof.
  exact (@second_call_probes_once Index2.net_driver_9125 (new_ThermalPrinter 384)
           (@start Index2.net_driver_9125 ())
           (@Index2.findDriver Index2.net_driver_9125 (new_ThermalPrinter 384)
              (@start Index2.net_driver_9125 ())).2
           driver_health () eq_refl eq_refl eq_refl).
Defined.

Section filtering.
Context `{Network}.

(** On an entry that is not [null] the callback of the filter does not
    throw, and says whether both identifiers are the given strings. *)
Lemma same_ids_has_ids vid pid p :
  p ≠ JNull → Index2.same_ids vid pid p = Normal (Index2.has_ids vid pid p).
Proof.
  intros Hp. unfold Index2.same_ids, Index2.has_ids.
  assert (∀ k, ∃ v, get p k = Normal v) as Hget.
  { intros k. destruct p, k; try done; cbn; try by eexists.
    all: repeat case_match; by eexists. }
  destruct (Hget (Name "vid")) as [v ->].
  destruct (Hget (Name "pid")) as [w ->].
  by destruct (Index2.is_string v vid).
Qed.

Lemma filter_ids_run vid pid items :
  match Index2.filter_ids vid pid items with
  | Normal kept =>
      kept = List.filter (Index2.has_ids vid pid) items ∧
      Forall (λ p, p ≠ JNull) items
  | Throw _ => Exists (λ p, p = JNull) items
  end.
Proof.
  induction items as [|p items IH]; [by split|].
  cbn [Index2.filter_ids List.filter].
  assert (p = JNull ∨ p ≠ JNull) as [->|Hp]
    by (destruct p; first [by left|by right]).
  { by left. }
  rewrite same_ids_has_ids by done.
  destruct (Index2.filter_ids vid pid items) as [kept|err].
  - destruct IH as [-> Hall]. split; [|by constructor].
    by destruct (Index2.has_ids vid pid p).
  - by right.
Qed.

Lemma fetch_filtered_run vid pid apiUrl e :
  ∃ fr kept,
    Index2.fetch_filtered vid pid apiUrl e =
      (Normal (JArr kept),
       mkEnv _ (fetch (printers_request apiUrl) (world e)).2
               (trace e ++ [(printers_request apiUrl, fr)])) ∧
    (kept = [] ∨
     ∃ res items, fr = Resolved res ∧ body res = Some (JArr items) ∧
                  kept = List.filter (Index2.has_ids vid pid) items ∧
                  Forall (λ p, p ≠ JNull) items).
Proof.
  unfold Index2.fetch_filtered, bind, ret, await_fetch.
  destruct (fetch _ (world e)) as [[why|res] w]; cbn [fst snd].
  { exists (Rejected why), []. split; [done|by left]. }
  exists (Resolved res).
  destruct (body res) as [allPrinters|] eqn:Hbody;
    [|exists []; split; [done|by left]].
  destruct allPrinters as [| | | |items|];
    try (exists []; split; [done|by left]).
  cbn [Index2.filter_printers].
  pose proof (filter_ids_run vid pid items) as Hrun.
  destruct (Index2.filter_ids vid pid items) as [kept|err].
  - destruct Hrun as [-> Hall]. eexists. split; [done|].
    right. by exists res, items.
  - exists []. split; [done|by left].
Qed.

(** [getPrinters_filterByVidPid] never throws and always returns an
    array. Unless that array is empty, the last request of the call was
    answered with a JSON array without [null] entries, and the result is
    that array restricted, in order, to the entries whose [vid] and [pid]
    are both the given strings. *)
Theorem filtered_list_is_array vid pid overrideUrl e :
  let run := Index2.getPrinters_filterByVidPid vid pid overrideUrl e in
  ∃ kept,
    run.1 = Normal (JArr kept) ∧
    Forall (λ p, Index2.has_ids vid pid p = true) kept ∧
    (kept = [] ∨
     ∃ before rq res items,
       trace run.2 = trace e ++ before ++ [(rq, Resolved res)] ∧
       method rq = GET ∧
       body res = Some (JArr items) ∧
       Forall (λ p, p ≠ JNull) items ∧
       kept = List.filter (Index2.has_ids vid pid) items).
Proof.
  intros run. subst run.
  assert (∀ apiUrl e1 t1, trace e1 = trace e ++ t1 →
    ∃ kept,
      (Index2.fetch_filtered vid pid apiUrl e1).1 = Normal (JArr kept) ∧
      Forall (λ p, Index2.has_ids vid pid p = true) kept ∧
      (kept = [] ∨
       ∃ before rq res items,
         trace (Index2.fetch_filtered vid pid apiUrl e1).2 =
           trace e ++ before ++ [(rq, Resolved res)] ∧
         method rq = GET ∧
         body res = Some (JArr items) ∧
         Forall (λ p, p ≠ JNull) items ∧
         kept = List.filter (Index2.has_ids vid pid) items)) as Hfetch.
  { intros apiUrl e1 t1 Ht1.
    destruct (fetch_filtered_run vid pid apiUrl e1)
      as (fr & kept & -> & Hkept).
    exists kept. split; [done|].
    destruct Hkept as [->|(res & items & -> & Hbody & -> & Hall)].
    - split; [constructor|by left].
    - split.
      + apply Forall_forall. intros p Hp%list_elem_of_In.
        by apply List.filter_In in Hp as [_ Hp].
      + right. exists t1, (printers_request apiUrl), res, items.
        cbn [snd trace]. by rewrite Ht1, <- app_assoc. }
  unfold Index2.getPrinters_filterByVidPid.
  destruct (negb (truthy (of_nullable overrideUrl))).
  - unfold bind, ret.
    destruct (findDriver2_run (new_ThermalPrinter 384) e) as (t1 & Ht1 & _).
    destruct (Index2.findDriver _ e) as [[found temp] e1]. cbn [snd] in Ht1.
    destruct found; [by apply (Hfetch _ _ t1)|].
    exists []. cbn. split; [done|]. split; [constructor|by left].
  - apply (Hfetch _ _ []). by rewrite app_nil_r.
Qed.

End filtering.

Section printing.
Context `{Network, Platform}.

Lemma getPrinters2_extends overrideUrl e :
  ∃ tr, trace (Index2.getPrinters overrideUrl e).2 = trace e ++ tr.
Proof.
  unfold Index2.getPrinters.
  destruct (negb (truthy (of_nullable overrideUrl))).
  - unfold bind.
    destruct (findDriver2_run (new_ThermalPrinter 384) e) as (t1 & Ht1 & _).
    destruct (Index2.findDriver _ e) as [[found temp] e1]. cbn [snd] in Ht1.
    destruct found.
    + destruct (fetch_printers_run (driverApi temp) e1) as (fr & -> & _).
      cbn. rewrite Ht1, <- app_assoc. eauto.
    + cbn. eauto.
  - destruct (fetch_printers_run overrideUrl e) as (fr & -> & _).
    cbn. eauto.
Qed.

Lemma filtered_extends vid pid overrideUrl e :
  ∃ tr kept,
    trace (Index2.getPrinters_filterByVidPid vid pid overrideUrl e).2 =
      trace e ++ tr ∧
    (Index2.getPrinters_filterByVidPid vid pid overrideUrl e).1 =
      Normal (JArr kept).
Proof.
  unfold Index2.getPrinters_filterByVidPid.
  destruct (negb (truthy (of_nullable overrideUrl))).
  - unfold bind, ret.
    destruct (findDriver2_run (new_ThermalPrinter 384) e) as (t1 & Ht1 & _).
    destruct (Index2.findDriver _ e) as [[found temp] e1]. cbn [snd] in Ht1.
    destruct found.
    + destruct (fetch_filtered_run vid pid (driverApi temp) e1)
        as (fr & kept & -> & _).
      cbn. rewrite Ht1, <- app_assoc. eauto.
    + cbn. by exists t1, [].
  - destruct (fetch_filtered_run vid pid overrideUrl e)
      as (fr & kept & -> & _).
    cbn. eauto.
Qed.

(** The two ways a call of [print] ends, in this revision. *)
Lemma print2_run name this e :
  (∃ err, (Index2.print name this e).1.1 = Throw err ∧
          buffer (Index2.print name this e).1.2 = buffer this)
  ∨ (Index2.print name this e).1.1 = Normal true ∧
    buffer (Index2.print name this e).1.2 = [] ∧
    ∃ before rq res,
      trace (Index2.print name this e).2 =
        trace e ++ before ++ [(rq, Resolved res)] ∧
      method rq = POST "application/octet-stream" (getBuffer this) ∧
      ok res = true.
Proof.
  unfold Index2.print, bind, ret.
  destruct (findDriver2_run this e) as (t1 & Ht1 & Hbuf & _).
  destruct (Index2.findDriver this e) as [[found this1] e1].
  cbn [fst snd] in *.
  destruct found; cbn [negb]; [|left; by eexists].
  assert (∀ printerName e2 t2, trace e2 = trace e ++ t2 →
    (∃ err, (deliver printerName this1 e2).1.1 = Throw err ∧
            buffer (deliver printerName this1 e2).1.2 = buffer this)
    ∨ (deliver printerName this1 e2).1.1 = Normal true ∧
      buffer (deliver printerName this1 e2).1.2 = [] ∧
      ∃ before rq res,
        trace (deliver printerName this1 e2).2 =
          trace e ++ before ++ [(rq, Resolved res)] ∧
        method rq = POST "application/octet-stream" (getBuffer this) ∧
        ok res = true) as Hdeliver.
  { intros printerName e2 t2 Ht2.
    destruct (deliver_run printerName this1 e2)
      as [(err & -> & ->)|(-> & -> & enc & res & -> & Hok)].
    - left. by eexists.
    - right. split; [done|]. split; [done|].
      exists t2, (print_request (driverApi this1) enc (getBuffer this1)), res.
      rewrite Ht2, <- app_assoc. split; [done|]. split; [|done].
      unfold getBuffer. by rewrite Hbuf. }
  destruct (truthy name); cbn [negb]; [by apply (Hdeliver _ _ t1)|].
  destruct (getPrinters2_extends (driverApi this1) e1) as (t2 & Ht2).
  destruct (Index2.getPrinters (driverApi this1) e1) as [[printers|err] e2];
    cbn [snd] in Ht2; [|left; by eexists].
  destruct (first_printer_name printers) as [printerName|err];
    [|left; by eexists].
  apply (Hdeliver _ _ (t1 ++ t2)). by rewrite Ht2, Ht1, <- app_assoc.
Qed.

Lemma print_fixId_unfold vid pid this e :
  Index2.print_fixId vid pid this e =
  let '((found, this1), e1) := Index2.findDriver this e in
  if negb found then ((Throw (Error msg_no_driver), this1), e1)
  else
    let '(printers, e2) :=
      Index2.getPrinters_filterByVidPid vid pid (driverApi this1) e1 in
    match printers with
    | Throw err => ((Throw err, this1), e2)
    | Normal printers =>
        match get printers (Name "length") with
        | Throw err => ((Throw err, this1), e2)
        | Normal len =>
            if Index2.is_zero len
            then ((Throw (Error (Index2.msg_no_match vid pid)), this1), e2)
            else
              match get printers (Index 0) with
              | Throw err => ((Throw err, this1), e2)
              | Normal first =>
                  match get_of first (Name "name") with
                  | Throw err => ((Throw err, this1), e2)
                  | Normal printerName => Index2.print printerName this1 e2
                  end
              end
        end
    end.
Proof.
  unfold Index2.print_fixId, bind, ret.
  destruct (Index2.findDriver this e) as [[found this1] e1].
  destruct found; cbn [negb]; [|done].
  destruct (Index2.getPrinters_filterByVidPid _ _ _ e1)
    as [[printers|err] e2]; [|done].
  destruct (get printers (Name "length")) as [len|err]; [|done].
  destruct (Index2.is_zero len); [done|].
  destruct (get printers (Index 0)) as [first|err]; [|done].
  by destruct (get_of first (Name "name")).
Qed.

(** [print_fixId]: without a driver it throws the connection error; when
    no listed printer has the two identifiers it throws ["No printer found
    with VID: ..., PID: ..."] right after the request for the list; whenever
    it throws the buffer is as it was; and it returns only after a POST of
    the buffer that resolved with a success status, with the buffer
    cleared. *)
Theorem print_fixId_outcomes vid pid this e :
  let run := Index2.print_fixId vid pid this e in
  let d := Index2.findDriver this e in
  let list :=
    Index2.getPrinters_filterByVidPid vid pid (driverApi d.1.2) d.2 in
  (d.1.1 = false → run = ((Throw (Error msg_no_driver), d.1.2), d.2)) ∧
  (d.1.1 = true → list.1 = Normal (JArr []) →
     run = ((Throw (Error (Index2.msg_no_match vid pid)), d.1.2), list.2)) ∧
  (∀ err, run.1.1 = Throw err → buffer run.1.2 = buffer this) ∧
  (∀ v, run.1.1 = Normal v →
     buffer run.1.2 = [] ∧
     ∃ before rq res,
       trace run.2 = trace e ++ before ++ [(rq, Resolved res)] ∧
       method rq = POST "application/octet-stream" (getBuffer this) ∧
       ok res = true).
Proof.
  intros run d list. subst run d list.
  rewrite print_fixId_unfold.
  destruct (findDriver2_run this e) as (t1 & Ht1 & Hbuf & _).
  destruct (Index2.findDriver this e) as [[found this1] e1].
  cbn [fst snd] in *.
  destruct found; cbn [negb].
  2: { split; [done|]. split; [done|]. split; [by intros err _|done]. }
  split; [done|].
  destruct (filtered_extends vid pid (driverApi this1) e1)
    as (t2 & kept & Ht2 & Hkept).
  destruct (Index2.getPrinters_filterByVidPid _ _ _ e1) as [printers e2].
  cbn [fst snd] in *. subst printers. cbn [get].
  destruct kept as [|first kept]; cbn [length Index2.is_zero Z.of_nat].
  { split; [done|]. split; [by intros err _|done]. }
  split; [done|]. rewrite (proj2 (Z.eqb_neq _ 0)) by lia.
  replace (of_item ((first :: kept) !! 0%nat)) with (Val first) by done.
  cbn [get_of].
  destruct (get first (Name "name")) as [printerName|err].
  2: { split; [by intros ? _|done]. }
  destruct (print2_run printerName this1 e2)
    as [(err & Herr & Hsame)|(Hok & Hempty & before & rq & res & Htr & Hrq & Hres)].
  - rewrite Herr, Hsame. split; [by intros ? _|done].
  - rewrite Hok, Hempty. split; [done|]. intros v _. split; [done|].
    exists (t1 ++ t2 ++ before), rq, res.
    rewrite Htr, Ht2, Ht1, <- !app_assoc. split; [done|]. split; [|done].
    rewrite Hrq. unfold getBuffer. by rewrite Hbuf.
Qed.

End printing.

(** A client that selects the printer with the identifiers of
    [usb_printer] among the two the driver lists. *)
Lemma print_fixId_outcomes_witness :
  let this := mkPrinter None 384 [Some 0x1b; Some 0x40] in
  let run := @Index2.print_fixId Index2.net_driver_9125 ascii_host
               "VID_0FE6" "PID_811E" this
               (@start Index2.net_driver_9125 ()) in
  run.1.1 = Normal true ∧ buffer run.1.2 = [] ∧
  (λ x, url x.1) <$> last (trace run.2) =
    Some "http://localhost:9125/print?printer=POS-80"%string.
Proof.
  intros this run. split; [reflexivity|].
  destruct (@print_fixId_outcomes Index2.net_driver_9125 ascii_host
              "VID_0FE6" "PID_811E" this (@start Index2.net_driver_9125 ()))
    as (_ & _ & _ & Hnormal).
  destruct (Hnormal true eq_refl) as [Hempty _].
  split; [exact Hempty|reflexivity].
Defined.

End Index2Facts.
